(** * A content-addressed OCR cache: the coordinator of [main.py]

    This development embeds the cache coordinator of [src/main.py] --
    [file_sha256], [safe_write_json], [load_index], [save_index],
    [list_pdf_files], [ocr_bytes_worker], [ocr_pdf_with_cache] and the
    document loop of [main] -- and proves or refutes the statements the
    specification makes about them.

    Conventions of the embedding.
    - Python values that travel through [json.loads]/[json.dump] are terms
      of [json]; [None] is [JNull].  Floating-point JSON numbers are not
      represented (the program itself only ever stores integers).
    - A Python exception is a value of [exn]; a call that may raise returns
      a [result].  Effects performed before an exception are kept.
    - The cache directory is a finite map from file names (relative to
      [CACHE_DIR]) to contents; a file either holds a JSON document or text
      that [json.loads] rejects (which is also what a partially written
      file holds).
    - The index is one shared Python [dict]; it lives in the [world] and is
      updated in place. *)

From Stdlib Require Import ZArith QArith Ascii.
From stdpp Require Import gmap strings list fin_maps sorting pretty.
From Equations Require Import Equations.

Set Warnings "-register-all".
Local Open Scope string_scope.
Local Open Scope Z_scope.
Local Open Scope list_scope.

(** ** Python-level preliminaries *)

Definition bytes := list Byte.byte.

(** The exceptions the modelled code can raise.  [SystemExit] is not a
    subclass of [Exception]; every other constructor is. *)
Inductive exn : Type :=
| FileNotFoundError
| OSError
| AttributeError
| KeyError
| TypeError
| UnboundLocalError
| BrokenProcessPool
| SystemExit (msg : string).

Definition is_Exception (e : exn) : bool :=
  match e with SystemExit _ => false | _ => true end.

Inductive result (A : Type) : Type :=
| Ok (a : A)
| Raise (e : exn).
Arguments Ok {A} a.
Arguments Raise {A} e.

Definition is_Ok {A} (r : result A) : bool :=
  match r with Ok _ => true | Raise _ => false end.

(** JSON documents as Python objects. *)
Inductive json : Type :=
| JNull
| JBool (b : bool)
| JInt (n : Z)
| JStr (s : string)
| JList (l : list json)
| JDict (d : gmap string json).

(** Truth value of a Python object ([if entry ...]). *)
Definition truthy (v : json) : bool :=
  match v with
  | JNull => false
  | JBool b => b
  | JInt n => negb (n =? 0)
  | JStr s => negb (String.eqb s "")
  | JList l => match l with [] => false | _ => true end
  | JDict d => negb (bool_decide (d = ∅))
  end.

(** [v.get(k)]: only dictionaries have the method. *)
Definition py_get (v : json) (k : string) : result json :=
  match v with
  | JDict d => Ok (default JNull (d !! k))
  | _ => Raise AttributeError
  end.

(** [v[k]] on a dictionary. *)
Definition py_subscript (v : json) (k : string) : result json :=
  match v with
  | JDict d => match d !! k with Some x => Ok x | None => Raise KeyError end
  | _ => Raise TypeError
  end.

(** [v == n] for an integer [n]: Python compares numbers by value and a
    [bool] is the integer 0 or 1. *)
Definition py_eq_int (v : json) (n : Z) : bool :=
  match v with
  | JInt m => m =? n
  | JBool b => Z.b2z b =? n
  | _ => false
  end.

(** [int(x)] on a float, seen as the rational it denotes: truncation
    towards zero. *)
Definition py_int (x : Q) : Z := Z.quot (Qnum x) (Z.pos (Qden x)).

(** [list.sort] / [sorted]: a stable sort that only ever asks [a < b]. *)
Section PySort.
Context {A : Type} (lt : A → A → bool).

Fixpoint py_insert (x : A) (l : list A) : list A :=
  match l with
  | [] => [x]
  | y :: l' => if lt y x then y :: py_insert x l' else x :: y :: l'
  end.

Definition py_sorted (l : list A) : list A := foldr py_insert [] l.

(** [a] may stand before [b] in a sorted list: [b < a] is false. *)
Definition py_le (a b : A) : Prop := lt b a = false.

End PySort.

(** ** ContentHasher: [hashlib] objects and [file_sha256] *)

(** What the code uses of a [hashlib] object.  The two update laws are
    the library's documented contract (feeding data in pieces is the same
    as feeding the concatenation); a SHA-256 hex digest has 64 digits. *)
Class Hasher := {
  hstate : Type;
  h_new : hstate;
  h_update : hstate → bytes → hstate;
  h_hexdigest : hstate → string;
  h_update_app : ∀ h a b, h_update (h_update h a) b = h_update h (a ++ b);
  h_update_nil : ∀ h, h_update h [] = h;
  h_hexdigest_length : ∀ h, String.length (h_hexdigest h) = 64%nat
}.

(** SHA-256 itself (FIPS 180-4), on 32-bit words kept in [Z]. *)
Module SHA256.
Definition w32 (x : Z) : Z := x mod 2 ^ 32.
Definition add32 (x y : Z) : Z := w32 (x + y).
Definition rotr (n x : Z) : Z := w32 (Z.lor (Z.shiftr x n) (Z.shiftl x (32 - n))).
Definition Ch (x y z : Z) : Z := Z.lxor (Z.land x y) (Z.land (Z.lxor x 4294967295) z).
Definition Maj (x y z : Z) : Z := Z.lxor (Z.lxor (Z.land x y) (Z.land x z)) (Z.land y z).
Definition Sigma0 (x : Z) : Z := Z.lxor (Z.lxor (rotr 2 x) (rotr 13 x)) (rotr 22 x).
Definition Sigma1 (x : Z) : Z := Z.lxor (Z.lxor (rotr 6 x) (rotr 11 x)) (rotr 25 x).
Definition sigma0 (x : Z) : Z := Z.lxor (Z.lxor (rotr 7 x) (rotr 18 x)) (Z.shiftr x 3).
Definition sigma1 (x : Z) : Z := Z.lxor (Z.lxor (rotr 17 x) (rotr 19 x)) (Z.shiftr x 10).

(** The round constants and the initial hash value are, as the standard
    defines them, the first 32 bits of the fractional parts of the cube
    roots of the first 64 primes and of the square roots of the first 8. *)
Definition is_prime (n : Z) : bool :=
  forallb (λ d, negb (n mod Z.of_nat d =? 0)) (seq 2 (Z.to_nat n - 2)).

Definition primes (count : nat) : list Z :=
  take count (List.filter is_prime (Z.of_nat <$> seq 2 310)).

(** The integer cube root, found one bit at a time. *)
Definition icbrt (n : Z) : Z :=
  foldl (λ r b, let r' := r + 2 ^ Z.of_nat b in if r' * r' * r' <=? n then r' else r)
        0 (reverse (seq 0 40)).

Definition K : list Z :=
  Eval vm_compute in (λ p, w32 (icbrt (p * 2 ^ 96))) <$> primes 64.

Record regs := Regs { ra : Z; rb : Z; rc : Z; rd : Z; re : Z; rf : Z; rg : Z; rh : Z }.

Definition H0 : regs :=
  Eval vm_compute in
    match (λ p, w32 (Z.sqrt (p * 2 ^ 64))) <$> primes 8 with
    | [a; b; c; d; e; f; g; h] => Regs a b c d e f g h
    | _ => Regs 0 0 0 0 0 0 0 0
    end.

Definition byteZ (b : Byte.byte) : Z := Z.of_N (Byte.to_N b).

(** Padding: 0x80, zeros up to 56 mod 64, then the bit length on 8 bytes. *)
Definition be_bytes (n : nat) (x : Z) : list Z :=
  (λ i, Z.land (Z.shiftr x (8 * Z.of_nat (n - 1 - i))) 255) <$> seq 0 n.
Definition pad (msg : bytes) : list Z :=
  let len := Z.of_nat (length msg) in
  let zeros := Z.to_nat ((55 - len) mod 64) in
  (byteZ <$> msg) ++ [128] ++ replicate zeros 0 ++ be_bytes 8 (8 * len).

Fixpoint words (n : nat) (bs : list Z) : list Z :=
  match n, bs with
  | S n', b0 :: b1 :: b2 :: b3 :: bs' =>
      (b0 * 16777216 + b1 * 65536 + b2 * 256 + b3) :: words n' bs'
  | _, _ => []
  end.

(** Message schedule, kept newest first. *)
Fixpoint schedule (n : nat) (w : list Z) : list Z :=
  match n with
  | O => w
  | S n' =>
      let x i := default 0 (w !! i) in
      schedule n' (add32 (add32 (sigma1 (x 1%nat)) (x 6%nat)) (add32 (sigma0 (x 14%nat)) (x 15%nat)) :: w)
  end.

Definition round (r : regs) (kw : Z * Z) : regs :=
  let t1 := add32 (add32 (add32 (rh r) (Sigma1 (re r))) (add32 (Ch (re r) (rf r) (rg r)) kw.1)) kw.2 in
  let t2 := add32 (Sigma0 (ra r)) (Maj (ra r) (rb r) (rc r)) in
  Regs (add32 t1 t2) (ra r) (rb r) (rc r) (add32 (rd r) t1) (re r) (rf r) (rg r).

Definition compress (r : regs) (block : list Z) : regs :=
  let w := reverse (schedule 48 (reverse (words 16 block))) in
  let r' := foldl round r (zip K w) in
  Regs (add32 (ra r) (ra r')) (add32 (rb r) (rb r')) (add32 (rc r) (rc r')) (add32 (rd r) (rd r'))
       (add32 (re r) (re r')) (add32 (rf r) (rf r')) (add32 (rg r) (rg r')) (add32 (rh r) (rh r')).

Fixpoint blocks (n : nat) (r : regs) (bs : list Z) : regs :=
  match n with
  | O => r
  | S n' => blocks n' (compress r (take 64 bs)) (drop 64 bs)
  end.

Definition digest (msg : bytes) : regs :=
  let p := pad msg in blocks (length p / 64) H0 p.

Definition hexdigit (x : Z) : Ascii.ascii :=
  default "0"%char (String.list_ascii_of_string "0123456789abcdef" !! Z.to_nat (Z.land x 15)).
Definition hex8 (x : Z) (tail : string) : string :=
  String (hexdigit (Z.shiftr x 28)) (String (hexdigit (Z.shiftr x 24))
  (String (hexdigit (Z.shiftr x 20)) (String (hexdigit (Z.shiftr x 16))
  (String (hexdigit (Z.shiftr x 12)) (String (hexdigit (Z.shiftr x 8))
  (String (hexdigit (Z.shiftr x 4)) (String (hexdigit x) tail))))))).
Definition hex (r : regs) : string :=
  hex8 (ra r) (hex8 (rb r) (hex8 (rc r) (hex8 (rd r)
  (hex8 (re r) (hex8 (rf r) (hex8 (rg r) (hex8 (rh r) ""))))))).
Definition hexdigest (msg : bytes) : string := hex (digest msg).
End SHA256.

(** The [hashlib.sha256] object: observably, the bytes fed so far. *)
#[export] Instance sha256_hasher : Hasher := {|
  hstate := bytes;
  h_new := [];
  h_update h d := h ++ d;
  h_hexdigest := SHA256.hexdigest;
  h_update_app h a b := eq_sym (app_assoc h a b);
  h_update_nil h := app_nil_r h;
  h_hexdigest_length h := eq_refl
|}.

(** [f.read(n)] on a binary file whose unread part is [rest]: the chunk
    returned and what stays unread.  A negative [n] reads to the end. *)
Definition f_read (n : Z) (rest : bytes) : bytes * bytes :=
  if (n <? 0)%Z then (rest, [])
  else (take (Z.to_nat n) rest, drop (Z.to_nat n) rest).

Definition inspect {A} (a : A) : {b : A | a = b} := exist _ a eq_refl.

Section Hashing.
Context `{Hasher}.

(** [for chunk in iter(lambda: f.read(block_size), b""): h.update(chunk)] *)
Equations? hash_blocks (block_size : Z) (h : hstate) (rest : bytes)
  : hstate by wf (length rest) lt :=
  hash_blocks block_size h rest with inspect (f_read block_size rest) => {
    | exist _ ([], _) _ := h ;
    | exist _ (c :: cs, rest') e :=
        hash_blocks block_size (h_update h (c :: cs)) rest' }.
Proof.
  unfold f_read in e. destruct (block_size <? 0)%Z.
  - inversion e; subst. simpl. lia.
  - inversion e as [[Hc Hr]]. rewrite length_drop.
    destruct (Z.to_nat block_size); [simpl in Hc; discriminate|].
    destruct rest; simpl in *; [discriminate | lia].
Qed.

(** [file_sha256(path, block_size)]; [content] is what [path.open("rb")]
    gives, [None] when the file cannot be opened. *)
Definition file_sha256 (content : option bytes) (block_size : Z)
  : result string :=
  match content with
  | None => Raise OSError
  | Some data => Ok (h_hexdigest (hash_blocks block_size h_new data))
  end.

(** [hashlib.sha256(data).hexdigest()], the digest of the whole content. *)
Definition sha256_hex (data : bytes) : string :=
  h_hexdigest (h_update h_new data).

End Hashing.

(** ** Paths ([pathlib]) *)

(** An absolute path, as the list of its components below the root. *)
Definition path := list string.

(** [str(p)] *)
Definition str_path (p : path) : string :=
  match p with
  | [] => "/"
  | _ => foldr (λ c acc, "/" +:+ c +:+ acc) "" p
  end.

(** [p.name], the last component. *)
Definition path_name (p : path) : string := default "" (last p).

(** [name.rfind(".")] *)
Fixpoint rfind_dot (s : string) : option nat :=
  match s with
  | EmptyString => None
  | String a s' =>
      match rfind_dot s' with
      | Some i => Some (S i)
      | None => if Ascii.eqb a "."%char then Some O else None
      end
  end.

(** [PurePath.suffix] of a file name: the part from the last dot on,
    unless that dot is the first or the last character. *)
Definition suffix (name : string) : string :=
  match rfind_dot name with
  | Some i =>
      if ((0 <? i) && (i <? String.length name - 1))%nat
      then String.substring i (String.length name - i) name
      else ""
  | None => ""
  end.

(** [PurePath.with_suffix] on a file name. *)
Definition with_suffix (name sfx : string) : string :=
  let old := suffix name in
  if String.eqb old "" then name +:+ sfx
  else String.substring 0 (String.length name - String.length old) name +:+ sfx.

(** [str.lower] on the ASCII letters. *)
Definition ascii_lower (c : ascii) : ascii :=
  let n := nat_of_ascii c in
  if ((65 <=? n) && (n <=? 90))%nat then ascii_of_nat (n + 32) else c.

Fixpoint str_lower (s : string) : string :=
  match s with
  | EmptyString => EmptyString
  | String c s' => String (ascii_lower c) (str_lower s')
  end.

(** Order of [Path] objects: component lists, lexicographically, each
    component compared as a string. *)
Fixpoint path_compare (p q : path) : comparison :=
  match p, q with
  | [], [] => Eq
  | [], _ :: _ => Lt
  | _ :: _, [] => Gt
  | a :: p', b :: q' =>
      match String.compare a b with
      | Eq => path_compare p' q'
      | c => c
      end
  end.

Definition path_lt (p q : path) : bool :=
  match path_compare p q with Lt => true | _ => false end.

(** ** CacheStore: files of the cache directory *)

Inductive content : Type :=
| Doc (j : json)     (* the file holds the serialisation of [j] *)
| Garbage.           (* [json.loads] raises on what the file holds *)

Definition INDEX_FILE : string := "ocr_index.json".

(** The three file-system steps of one [safe_write_json]. *)
Inductive fsop : Type :=
| OpOpen (name : string)               (* [tmp.open("w")]: create or truncate *)
| OpDump (name : string) (obj : json)  (* [json.dump(obj, f)] and close *)
| OpReplace (src dst : string).        (* [tmp.replace(path)] *)

Definition apply_op (op : fsop) (fs : gmap string content) : gmap string content :=
  match op with
  | OpOpen name => <[name := Garbage]> fs
  | OpDump name obj => <[name := Doc obj]> fs
  | OpReplace src dst =>
      match fs !! src with
      | Some c => <[dst := c]> (delete src fs)
      | None => fs
      end
  end.

Definition tmp_name (name : string) : string :=
  with_suffix name (suffix name +:+ ".tmp").

Definition safe_write_json_ops (name : string) (obj : json) : list fsop :=
  let tmp := tmp_name name in
  [OpOpen tmp; OpDump tmp obj; OpReplace tmp name].

(** What a reader finds after the first [k] steps of [ops] (a crash
    after step [k]). *)
Definition crash_after (k : nat) (ops : list fsop) (fs : gmap string content)
  : gmap string content :=
  foldl (λ acc op, apply_op op acc) fs (take k ops).

(** [load_index()] *)
Definition load_index (fs : gmap string content) : json :=
  match fs !! INDEX_FILE with
  | Some (Doc j) => j
  | Some Garbage => JDict ∅
  | None => JDict ∅
  end.

(** ** The environment of a run *)

Record stat_result := { st_mtime : Q; st_size : Z }.

(** How the process pool of one document behaves.
    - [map_yields = None]: [Executor.map] delivers every result;
      [Some k]: it delivers the first [k] results and then raises.
    - [submit_raises]: [ex.submit] raises in the fallback (broken pool).
    - [completion]: the order in which the resubmitted futures finish,
      as successive positions among the futures still pending.
    - [result_raises n]: [fut.result()] raises for the page [n]. *)
Record PoolBehaviour := {
  map_yields : option nat;
  submit_raises : bool;
  completion : list nat;
  result_raises : nat → bool
}.

Record Env := {
  is_dir : path → bool;
  listdir : path → list string;
  is_file : path → bool;
  resolve : path → path;
  stat : path → option stat_result;
  open_rb : path → option bytes;
  (** [convert_from_path], each page already as its PNG bytes *)
  convert_from_path : path → option (list bytes);
  (** [Image.open] followed by [pytesseract.image_to_string] *)
  image_to_string : bytes → option string → option string;
  TESSERACT_CMD : option string;
  OCR_LANG : option string;
  io_fails : fsop → bool;
  pool : path → PoolBehaviour
}.

(** ** State and exceptions *)

Inductive event : Type :=
| EvProcessing (p : path)        (* "OCR processing: ..." *)
| EvHash (p : path)              (* [file_sha256] is called *)
| EvRasterize (p : path)         (* [convert_from_path] is called *)
| EvRasterizeFailed (p : path)   (* "[ERROR] convert_from_path failed" *)
| EvRecognize (page_no : nat)    (* a worker runs [ocr_bytes_worker] *)
| EvMapRaised                    (* "[WARN] Executor.map raised" *)
| EvWorkerFailed                 (* "[ERROR] OCR worker failed" *)
| EvDocError (p : path) (e : exn). (* main: "[ERROR] processing ..." *)

Record world := World {
  w_index : json;
  w_files : gmap string content;
  w_trace : list event
}.

Definition M (A : Type) : Type := world → result A * world.

Definition ret {A} (a : A) : M A := λ w, (Ok a, w).

Definition raise {A} (e : exn) : M A := λ w, (Raise e, w).

Definition bind {A B} (c : M A) (k : A → M B) : M B :=
  λ w, match c w with
       | (Ok a, w') => k a w'
       | (Raise e, w') => (Raise e, w')
       end.

Notation "'let*' x ':=' c 'in' k" := (bind c (λ x, k))
  (at level 10, x name, c at level 100, k at level 200).
Notation "c ;; k" := (bind c (λ _, k))
  (at level 100, k at level 200, right associativity).

Definition lift {A} (r : result A) : M A := λ w, (r, w).

(** [try: c  except Exception: h] *)
Definition try_except {A} (c : M A) (h : exn → M A) : M A :=
  λ w, match c w with
       | (Ok a, w') => (Ok a, w')
       | (Raise e, w') => if is_Exception e then h e w' else (Raise e, w')
       end.

Definition log (evs : list event) : M unit :=
  λ w, (Ok tt, World (w_index w) (w_files w) (w_trace w ++ evs)).

Definition get_index : M json := λ w, (Ok (w_index w), w).

Definition get_files : M (gmap string content) := λ w, (Ok (w_files w), w).

(** [index[key] = value] on the shared index object. *)
Definition index_setitem (key : string) (value : json) : M unit :=
  λ w, match w_index w with
       | JDict d => (Ok tt, World (JDict (<[key := value]> d)) (w_files w) (w_trace w))
       | _ => (Raise TypeError, w)
       end.

(** [CACHE_DIR / name] *)
Definition cache_path (name : json) : result string :=
  match name with
  | JStr s => Ok s
  | _ => Raise TypeError
  end.

(** ** CorpusScanner, PageWorkerPool and ExtractionCoordinator *)

(** A task of the pool: [(image_bytes, page_no, tcmd, lang)]. *)
Definition task : Type := bytes * nat * string * string.

Definition task_page (t : task) : nat := t.1.1.2.

(** [as_completed(futures)]: the futures in the order they finish. *)
Fixpoint as_completed {A} (order : list nat) (futures : list A) : list A :=
  match order with
  | [] => futures
  | i :: order' =>
      match futures !! i with
      | Some f => f :: as_completed order' (delete i futures)
      | None => as_completed order' futures
      end
  end.

(** [pages_text.sort(key=lambda x: x[0])] *)
Definition sort_by_page (l : list (nat * string)) : list (nat * string) :=
  py_sorted (λ a b, (a.1 <? b.1)%nat) l.

(** The [lang] argument of [image_to_string]: passed only when non-empty. *)
Definition lang_arg (lang : string) : option string :=
  if String.eqb lang "" then None else Some lang.

Section Coordinator.
Context `{Hasher} (env : Env).

(** [list_pdf_files(src_dir)] *)
Definition list_pdf_files (src_dir : path) : result (list path) :=
  if is_dir env src_dir then
    Ok (py_sorted path_lt
          (resolve env <$>
             List.filter
               (λ f, is_file env f && String.eqb (str_lower (suffix (path_name f))) ".pdf")
               ((λ n, src_dir ++ [n]) <$> listdir env src_dir)))
  else
    Raise (SystemExit ("SOURCE_DIR not found or not a directory: " +:+ str_path src_dir)).

(** [ocr_bytes_worker(args)].  Setting [tesseract_cmd] from [tcmd] in the
    worker process has no bearing on what is returned. *)
Definition ocr_bytes_worker (args : task) : nat * string :=
  let '(image_bytes, page_no, tcmd, lang) := args in
  let text :=
    match image_to_string env image_bytes (lang_arg lang) with
    | Some t => t
    | None => ""      (* except Exception: text = "" *)
    end in
  (page_no, text).

(** One file-system step; [OSError] when the step fails. *)
Definition fs_exec (op : fsop) : M unit :=
  λ w, if io_fails env op then (Raise OSError, w)
       else (Ok tt, World (w_index w) (apply_op op (w_files w)) (w_trace w)).

Fixpoint fs_exec_all (ops : list fsop) : M unit :=
  match ops with
  | [] => ret tt
  | op :: ops' => fs_exec op ;; fs_exec_all ops'
  end.

(** [safe_write_json(path, obj)] *)
Definition safe_write_json (name : string) (obj : json) : M unit :=
  fs_exec_all (safe_write_json_ops name obj).

(** [save_index(index)] *)
Definition save_index (index : json) : M unit :=
  safe_write_json INDEX_FILE index.

(** The tasks built from the page images, numbered from 1. *)
Definition make_tasks (images : list bytes) : list task :=
  imap (λ i img, (img, S i, default "" (TESSERACT_CMD env), default "" (OCR_LANG env)))
       images.

(** The body of [with ProcessPoolExecutor(...) as ex:], up to the sort:
    the [(page_no, text)] pairs appended to [pages_text].  A worker returns
    the page number it was given, so the [if page_no is None: continue]
    of both loops never skips anything. *)
Definition collect_pages (pb : PoolBehaviour) (tasks : list task)
  : M (list (nat * string)) :=
  match map_yields pb with
  | None =>
      log (EvRecognize ∘ task_page <$> tasks) ;;
      ret (ocr_bytes_worker <$> tasks)
  | Some k =>
      let yielded := ocr_bytes_worker <$> take k tasks in
      log (EvRecognize ∘ task_page <$> take k tasks) ;;
      log [EvMapRaised] ;;
      if submit_raises pb then raise BrokenProcessPool
      else
        let finished := as_completed (completion pb) tasks in
        let good := List.filter (λ t, negb (result_raises pb (task_page t))) finished in
        let bad := List.filter (λ t, result_raises pb (task_page t)) finished in
        log (EvRecognize ∘ task_page <$> good) ;;
        log (const EvWorkerFailed <$> bad) ;;
        ret (yielded ++ (ocr_bytes_worker <$> good))
  end.

(** The index entry and the record built on a miss. *)
Definition index_entry (mtime size : Z) (sha cache_filename : string) : json :=
  JDict (<["mtime" := JInt mtime]> (<["size" := JInt size]>
        (<["sha256" := JStr sha]> (<["cache_file" := JStr cache_filename]> ∅)))).

Definition record_data (abs_path : string) (mtime size : Z)
    (sha cache_filename : string) (pages_text : list string) : json :=
  JDict (<["path" := JStr abs_path]> (<["sha256" := JStr sha]>
        (<["mtime" := JInt mtime]> (<["size" := JInt size]>
        (<["cache_file" := JStr cache_filename]>
        (<["pages" := JList (JStr <$> pages_text)]> ∅)))))).

(** The test and the body of
    [if entry and entry.get("mtime") == mtime and entry.get("size") == size:].
    [Some data] when the function returns from inside it. *)
Definition try_cache (entry : json) (mtime size : Z) : M (option json) :=
  if truthy entry then
    let* m := lift (py_get entry "mtime") in
    if py_eq_int m mtime then
      let* s := lift (py_get entry "size") in
      if py_eq_int s size then
        let* cf := lift (py_subscript entry "cache_file") in
        let* cache_file := lift (cache_path cf) in
        let* fs := get_files in
        match fs !! cache_file with
        | Some (Doc data) => ret (Some data)
        | Some Garbage => ret None        (* except Exception: pass *)
        | None => ret None                (* not cache_file.exists() *)
        end
      else ret None
    else ret None
  else ret None.

(** The page texts of a document: from [convert_from_path] to the end of
    [if tasks: ... else: pages_text = []].  Encoding a page image as PNG
    ([img.convert], [img.save]) and creating the pool are taken to
    succeed. *)
Definition extract_pages (pdf_path : path) : M (list string) :=
  let* images :=
    try_except
      (log [EvRasterize pdf_path] ;;
       lift (match convert_from_path env pdf_path with
             | Some imgs => Ok imgs
             | None => Raise OSError
             end))
      (λ _, log [EvRasterizeFailed pdf_path] ;; ret []) in
  let tasks := make_tasks images in
  match tasks with
  | [] => ret []
  | _ :: _ =>
      let* collected := collect_pages (pool env pdf_path) tasks in
      ret (snd <$> sort_by_page collected)
  end.

(** [safe_write_json(cache_path, data)], [index[abs_path] = {...}] and
    [save_index(index)]. *)
Definition persist (abs_path : string) (mtime size : Z)
    (sha : string) (pages_text : list string) : M unit :=
  let cache_filename := sha +:+ ".json" in
  safe_write_json cache_filename
    (record_data abs_path mtime size sha cache_filename pages_text) ;;
  index_setitem abs_path (index_entry mtime size sha cache_filename) ;;
  let* index := get_index in
  save_index index.

(** From "# Need to process" to the end of [ocr_pdf_with_cache]. *)
Definition process (pdf_path : path) (abs_path : string) (mtime size : Z) : M json :=
  log [EvProcessing pdf_path] ;;
  log [EvHash pdf_path] ;;
  let* sha := lift (file_sha256 (open_rb env pdf_path) 65536) in
  let* pages_text := extract_pages pdf_path in
  match pages_text with
  | _ :: _ =>
      persist abs_path mtime size sha pages_text ;;
      ret (record_data abs_path mtime size sha (sha +:+ ".json") pages_text)
  | [] => raise UnboundLocalError       (* [return data] with [data] unbound *)
  end.

(** [ocr_pdf_with_cache(pdf_path, index)]; the index is [w_index]. *)
Definition ocr_pdf_with_cache (pdf_path : path) : M json :=
  let abs_path := str_path (resolve env pdf_path) in
  let* st := lift (match stat env pdf_path with
                   | Some st => Ok st
                   | None => Raise FileNotFoundError
                   end) in
  let mtime := py_int (st_mtime st) in
  let size := st_size st in
  let* index := get_index in
  let* entry := lift (py_get index abs_path) in
  let* cached := try_cache entry mtime size in
  match cached with
  | Some data => ret data
  | None => process pdf_path abs_path mtime size
  end.

(** The document loop of [main]: [all_data] after the PDFs of [pdfs]. *)
Fixpoint main_loop (pdfs : list path) (all_data : gmap string json)
  : M (gmap string json) :=
  match pdfs with
  | [] => ret all_data
  | pdf :: pdfs' =>
      let* all_data' :=
        try_except
          (let* data := ocr_pdf_with_cache pdf in
           ret (<[str_path (resolve env pdf) := data]> all_data))
          (λ e, log [EvDocError pdf e] ;; ret all_data) in
      main_loop pdfs' all_data'
  end.

(** [main()] up to the keyword prompt: the [all_data] it searches. *)
Definition main (source_dir : path) : M (gmap string json) :=
  let* pdf_list := lift (list_pdf_files source_dir) in
  match pdf_list with
  | [] => ret ∅
  | _ :: _ =>
      (λ w, (Ok tt, World (load_index (w_files w)) (w_files w) (w_trace w))) ;;
      main_loop pdf_list ∅
  end.

End Coordinator.

(** ** Terminal colours and the search layer *)

(** [CSI = "\x1b["] *)
Definition CSI : string := String (ascii_of_nat 27) "[".

(** [_ansi_rgb(fg, bg, bold)]; a colour is a triple of integers, [None]
    when the argument is left out. *)
Definition _ansi_rgb (fg bg : option (Z * Z * Z)) (bold : bool) : string :=
  let parts :=
    (if bold then ["1"] else [])
    ++ match fg with
       | Some (r, g, b) =>
           ["38;2;" +:+ pretty r +:+ ";" +:+ pretty g +:+ ";" +:+ pretty b]
       | None => []
       end
    ++ match bg with
       | Some (r, g, b) =>
           ["48;2;" +:+ pretty r +:+ ";" +:+ pretty g +:+ ";" +:+ pretty b]
       | None => []
       end in
  match parts with
  | [] => ""
  | _ :: _ => CSI +:+ String.concat ";" parts +:+ "m"
  end.

(** [colorize(text, fg, bg, bold)] *)
Definition colorize (text : string) (fg bg : option (Z * Z * Z)) (bold : bool) : string :=
  let start := _ansi_rgb fg bg bold in
  if String.eqb start "" then text
  else start +:+ text +:+ (CSI +:+ "0m").

Section Search.
(** [str.splitlines], [str.rstrip] and [keyword_re.search] are the
    library's; the code below is read for any behaviour of theirs. *)
Context (splitlines : string → list string) (rstrip : string → string).
Context (search : string → bool).

(** [search_in_pages(pages, keyword_re)] *)
Definition search_in_pages (pages : list string) : list (nat * nat * string) :=
  mjoin
    (imap (λ i text,
             omap (λ p : nat * string,
                     if search p.2 then Some (S i, p.1, rstrip p.2) else None)
                  (imap (λ j raw, (S j, raw)) (splitlines text)))
          pages).

End Search.

(** [by_page.setdefault(pno, []).append(item)] on a dictionary kept in
    insertion order. *)
Fixpoint setdefault_append (pno : nat) (item : nat * string)
    (by_page : list (nat * list (nat * string))) : list (nat * list (nat * string)) :=
  match by_page with
  | [] => [(pno, [item])]
  | (k, items) :: rest =>
      if (k =? pno)%nat then (k, items ++ [item]) :: rest
      else (k, items) :: setdefault_append pno item rest
  end.

(** [by_page[pno]] *)
Fixpoint by_page_get (pno : nat) (by_page : list (nat * list (nat * string)))
  : list (nat * string) :=
  match by_page with
  | [] => []
  | (k, items) :: rest => if (k =? pno)%nat then items else by_page_get pno rest
  end.

(** [main], the grouping of one file's hits: the dictionary [by_page]. *)
Definition group_by_page (hits : list (nat * nat * string))
  : list (nat * list (nat * string)) :=
  foldl (λ d h, setdefault_append h.1.1 (h.1.2, h.2) d) [] hits.

(** [main], what is printed for one file with hits: for each page of
    [sorted(by_page)], the page number and its [(line, text)] pairs. *)
Definition report_by_page (hits : list (nat * nat * string))
  : list (nat * list (nat * string)) :=
  let by_page := group_by_page hits in
  (λ pno, (pno, by_page_get pno by_page)) <$> py_sorted Nat.ltb (fst <$> by_page).

(** The [(page, line, text)] triples of a report, in printing order. *)
Definition report_lines (report : list (nat * list (nat * string)))
  : list (nat * nat * string) :=
  report ≫= (λ g, (λ it : nat * string, (g.1, it.1, it.2)) <$> g.2).

(** ** Vocabulary of the statements *)

(** The text recognised on a page image, [""] when recognition raises. *)
Definition page_text (env : Env) (img : bytes) : string :=
  default "" (image_to_string env img (lang_arg (default "" (OCR_LANG env)))).

(** The pages with their 1-based numbers. *)
Definition numbered (env : Env) (images : list bytes) : list (nat * string) :=
  imap (λ i img, (S i, page_text env img)) images.

(** The texts of the pages whose resubmitted future does not fail. *)
Definition surviving_pages (env : Env) (pb : PoolBehaviour) (images : list bytes)
  : list string :=
  snd <$> List.filter (λ p, negb (result_raises pb p.1)) (numbered env images).

(** The pool hands back the result of every task: through
    [Executor.map], or through a resubmission in which no future fails. *)
Definition pool_delivers (pb : PoolBehaviour) : Prop :=
  map_yields pb = None
  ∨ (map_yields pb = Some O ∧ submit_raises pb = false
     ∧ ∀ n, result_raises pb n = false).

(** The events a computation adds to the trace. *)
Definition events_of {A} (c : M A) (w : world) : list event :=
  drop (length (w_trace w)) (w_trace (snd (c w))).

(** Page-number order, as [sort_by_page] sees it. *)
Definition key_lt (a b : nat * string) : bool := (a.1 <? b.1)%nat.

(** The lists whose page numbers strictly increase. *)
Definition increasing (l : list (nat * string)) : Prop :=
  StronglySorted (λ a b, (a.1 < b.1)%nat) l.

(** Reading order of hits [(page_no, line_no, line_text)]: by page, then
    by line. *)
Definition reading_order (a b : nat * nat * string) : Prop :=
  (a.1.1 < b.1.1)%nat ∨ (a.1.1 = b.1.1 ∧ (a.1.2 < b.1.2)%nat).

(** Two file-system steps of the same kind on the same file. *)
Definition same_step (a b : fsop) : bool :=
  match a, b with
  | OpOpen n, OpOpen m => String.eqb n m
  | OpDump n _, OpDump m _ => String.eqb n m
  | OpReplace n _, OpReplace m _ => String.eqb n m
  | _, _ => false
  end.

(** The run is cut at step [k] (counted from 0) of [steps]: that step is
    the one that fails; past the end, none does. *)
Definition stops_at (k : nat) (steps : list fsop) : fsop → bool :=
  λ op, match steps !! k with
        | Some s => same_step s op
        | None => false
        end.

(** The number of steps of [ops] carried out before the first failure. *)
Fixpoint completed (fails : fsop → bool) (ops : list fsop) : nat :=
  match ops with
  | [] => O
  | op :: ops' => if fails op then O else S (completed fails ops')
  end.

(** The steps [persist] performs on a miss that produced pages. *)
Definition persist_ops (abs_path : string) (mtime size : Z) (sha : string)
    (pages_text : list string) (idx : gmap string json) : list fsop :=
  let cache_filename := sha +:+ ".json" in
  safe_write_json_ops cache_filename
    (record_data abs_path mtime size sha cache_filename pages_text)
  ++ safe_write_json_ops INDEX_FILE
       (JDict (<[abs_path := index_entry mtime size sha cache_filename]> idx)).

(** Unfolding of the monad's operations. *)
Ltac munfold :=
  unfold bind, ret, raise, lift, log, get_index, get_files, try_except in *.

(** The index entry [entry] is current for [(mtime, size)] and names a
    cache file of [fs] that holds the document [data]. *)
Definition entry_hit (entry : json) (mtime size : Z) (fs : gmap string content)
    (data : json) : Prop :=
  ∃ e cf, entry = JDict e
          ∧ py_eq_int (default JNull (e !! "mtime")) mtime = true
          ∧ py_eq_int (default JNull (e !! "size")) size = true
          ∧ e !! "cache_file" = Some (JStr cf)
          ∧ fs !! cf = Some (Doc data).

(** The cache-hit condition of [ocr_pdf_with_cache] for [pdf] in [w]. *)
Definition cache_hit (env : Env) (pdf : path) (w : world) (data : json) : Prop :=
  ∃ st idx entry,
    stat env pdf = Some st
    ∧ w_index w = JDict idx
    ∧ idx !! str_path (resolve env pdf) = Some entry
    ∧ entry_hit entry (py_int (st_mtime st)) (st_size st) (w_files w) data.

(** Every entry of [index] names a record file of [fs] that holds a
    complete document. *)
Definition index_backed (index : json) (fs : gmap string content) : Prop :=
  ∀ idx key e cf,
    index = JDict idx → idx !! key = Some (JDict e) →
    e !! "cache_file" = Some (JStr cf) →
    ∃ data, fs !! cf = Some (Doc data).

(** What a reader of the cache directory observes is coherent. *)
Definition store_consistent (fs : gmap string content) : Prop :=
  index_backed (load_index fs) fs.

(** Some entry of [index] names a temporary file. *)
Definition names_tmp (index : json) : Prop :=
  ∃ idx key e name,
    index = JDict idx ∧ idx !! key = Some (JDict e)
    ∧ e !! "cache_file" = Some (JStr (name +:+ ".tmp")).

(** ** Example environments *)

Definition healthy_pool : PoolBehaviour :=
  {| map_yields := None; submit_raises := false; completion := [];
     result_raises := λ _, false |}.

(** [Executor.map] raises at once; the resubmitted futures finish in the
    order 3, 1, 2 and the one of page 2 fails. *)
Definition degraded_pool : PoolBehaviour :=
  {| map_yields := Some O; submit_raises := false; completion := [2; 0]%nat;
     result_raises := λ n, (n =? 2)%nat |}.

Definition demo_doc : path := ["docs"; "a.pdf"].

Definition demo_pages : list bytes :=
  [[Byte.x01]; [Byte.x02]; [Byte.x03]; [Byte.x04]; [Byte.x05]].

(** One five-page document; recognition raises on its third page. *)
Definition demo_env : Env :=
  {| is_dir p := bool_decide (p = ["docs"]);
     listdir p := ["a.pdf"];
     is_file p := true;
     resolve p := p;
     stat p := Some {| st_mtime := 201 # 2; st_size := 3 |};
     open_rb p := Some [Byte.x61; Byte.x62; Byte.x63];
     convert_from_path p := Some demo_pages;
     image_to_string img lang :=
       match img with
       | [Byte.x01] => Some "one"
       | [Byte.x02] => Some "two"
       | [Byte.x04] => Some "four"
       | [Byte.x05] => Some "five"
       | _ => None
       end;
     TESSERACT_CMD := None;
     OCR_LANG := None;
     io_fails op := false;
     pool p := healthy_pool |}.

Definition with_pool (pb : PoolBehaviour) (env : Env) : Env :=
  {| is_dir := is_dir env; listdir := listdir env; is_file := is_file env;
     resolve := resolve env; stat := stat env; open_rb := open_rb env;
     convert_from_path := convert_from_path env;
     image_to_string := image_to_string env;
     TESSERACT_CMD := TESSERACT_CMD env; OCR_LANG := OCR_LANG env;
     io_fails := io_fails env; pool := λ _, pb |}.

Definition with_pages (pages : option (list bytes)) (env : Env) : Env :=
  {| is_dir := is_dir env; listdir := listdir env; is_file := is_file env;
     resolve := resolve env; stat := stat env; open_rb := open_rb env;
     convert_from_path := λ _, pages;
     image_to_string := image_to_string env;
     TESSERACT_CMD := TESSERACT_CMD env; OCR_LANG := OCR_LANG env;
     io_fails := io_fails env; pool := pool env |}.

Definition with_io_fails (f : fsop → bool) (env : Env) : Env :=
  {| is_dir := is_dir env; listdir := listdir env; is_file := is_file env;
     resolve := resolve env; stat := stat env; open_rb := open_rb env;
     convert_from_path := convert_from_path env;
     image_to_string := image_to_string env;
     TESSERACT_CMD := TESSERACT_CMD env; OCR_LANG := OCR_LANG env;
     io_fails := f; pool := pool env |}.

(** A directory with two PDFs, a text file, a sub-directory named like a
    PDF, a hidden file and a name that ends with a dot. *)
Definition demo_dir_env : Env :=
  {| is_dir p := bool_decide (p = ["docs"]);
     listdir p := ["b.PDF"; "notes.txt"; "a.pdf"; "sub.pdf"; ".pdf"; "x.pdf."];
     is_file p := negb (bool_decide (p = ["docs"; "sub.pdf"]));
     resolve := resolve demo_env; stat := stat demo_env; open_rb := open_rb demo_env;
     convert_from_path := convert_from_path demo_env;
     image_to_string := image_to_string demo_env;
     TESSERACT_CMD := None; OCR_LANG := None;
     io_fails := io_fails demo_env; pool := pool demo_env |}.

(** An empty cache directory and an empty index. *)
Definition fresh_world : world := World (JDict ∅) ∅ [].

(** [open("w")] fails for every file: nothing can be written. *)
Definition read_only_disk (op : fsop) : bool :=
  match op with OpOpen _ => true | _ => false end.

Definition demo_abs : string := "/docs/a.pdf".

Definition demo_sha : string := sha256_hex [Byte.x61; Byte.x62; Byte.x63].

Definition demo_texts : list string := ["one"; "two"; ""; "four"; "five"].

(** The record of the demo document. *)
Definition demo_record : json :=
  record_data demo_abs 100 3 demo_sha (demo_sha +:+ ".json") demo_texts.

(** A cache directory with one document cached, and its index. *)
Definition other_index : gmap string json :=
  {[ "/docs/b.pdf" := index_entry 5 7 "b" "b.json" ]}.

Definition other_files : gmap string content :=
  <["b.json" := Doc JNull]> {[ INDEX_FILE := Doc (JDict other_index) ]}.

(** The demo document is indexed with its current metadata, but its
    record file holds garbage. *)
Definition garbage_world : world :=
  World (JDict {[ demo_abs := index_entry 100 3 "x" "x.json" ]})
        {[ "x.json" := Garbage ]} [].

(** * Properties *)

(** ** ContentHasher *)

Section HashingFacts.
Context `{Hasher}.

Lemma f_read_split n rest : fst (f_read n rest) ++ snd (f_read n rest) = rest.
Proof.
  unfold f_read. destruct (n <? 0)%Z; simpl.
  - apply app_nil_r.
  - apply take_drop.
Qed.

Lemma f_read_eof n rest : n ≠ 0 → fst (f_read n rest) = [] → rest = [].
Proof.
  intros Hn. unfold f_read. destruct (Z.ltb_spec n 0); simpl; [done|].
  destruct (Z.to_nat n) eqn:E; [lia|]. by destruct rest.
Qed.

(** The block loop feeds the hash object exactly the unread bytes. *)
Lemma hash_blocks_whole block_size h rest :
  block_size ≠ 0 → hash_blocks block_size h rest = h_update h rest.
Proof.
  intros Hn. funelim (hash_blocks block_size h rest).
  - pose proof (f_read_eof block_size rest Hn) as E.
    rewrite e in E. rewrite (E eq_refl). by rewrite h_update_nil.
  - match goal with IH : _ → hash_blocks _ _ _ = _ |- _ => rewrite (IH Hn) end.
    rewrite h_update_app.
    pose proof (f_read_split block_size rest) as E.
    rewrite e in E. simpl in E. by rewrite <- E.
Qed.

(** C8. Streaming a file through [file_sha256] in blocks of any non-zero
    size gives the SHA-256 hex digest of the file's whole content; the
    digest therefore depends on the bytes only, and so does the cache
    object name built from it. *)
Theorem file_sha256_is_digest_of_content (data : bytes) (block_size : Z) :
  block_size ≠ 0 →
  file_sha256 (Some data) block_size = Ok (sha256_hex data)
  ∧ (∀ block_size', block_size' ≠ 0 →
       file_sha256 (Some data) block_size' = file_sha256 (Some data) block_size).
Proof.
  intros Hn. unfold file_sha256, sha256_hex. split.
  - by rewrite hash_blocks_whole.
  - intros b' Hb'. by rewrite !hash_blocks_whole.
Qed.

(** With [block_size = 0] the first [f.read(0)] already returns [b""]:
    no block is read and the digest is the one of the empty input. *)
Lemma file_sha256_block_size_zero (data : bytes) :
  file_sha256 (Some data) 0 = Ok (sha256_hex []).
Proof.
  unfold file_sha256, sha256_hex. simp hash_blocks. simpl.
  by rewrite h_update_nil.
Qed.

End HashingFacts.

Lemma file_sha256_is_digest_of_content_witness :
  3 ≠ 0
  ∧ file_sha256 (Some [Byte.x61; Byte.x62; Byte.x63; Byte.x64]) 3
    = Ok (sha256_hex [Byte.x61; Byte.x62; Byte.x63; Byte.x64]).
Proof.
  split; [lia|].
  apply (file_sha256_is_digest_of_content [Byte.x61; Byte.x62; Byte.x63; Byte.x64] 3).
  lia.
Defined.

(** ** The sort *)

Section PySortFacts.
Context {A : Type} (lt : A → A → bool).

Lemma py_insert_perm x l : py_insert lt x l ≡ₚ x :: l.
Proof.
  induction l as [|y l IH]; simpl; [done|].
  destruct (lt y x); [|done].
  rewrite IH. apply Permutation_swap.
Qed.

Lemma py_sorted_perm l : py_sorted lt l ≡ₚ l.
Proof.
  induction l as [|x l IH]; simpl; [done|].
  by rewrite py_insert_perm, IH.
Qed.

Lemma py_insert_HdRel a x l :
  py_le lt a x → HdRel (py_le lt) a l → HdRel (py_le lt) a (py_insert lt x l).
Proof.
  intros Hax Hal. destruct l as [|y l]; simpl.
  - by constructor.
  - destruct (lt y x); constructor; [by inversion Hal | done].
Qed.

Lemma py_insert_sorted x l :
  (∀ a b, lt a b = true → lt b a = false) →
  Sorted (py_le lt) l → Sorted (py_le lt) (py_insert lt x l).
Proof.
  intros Hasym. induction 1 as [|y l Hl IH Hhd]; simpl.
  - repeat constructor.
  - destruct (lt y x) eqn:E.
    + constructor; [done|]. apply py_insert_HdRel; [|done].
      unfold py_le. by apply Hasym.
    + constructor; [by constructor|]. by constructor.
Qed.

Lemma py_sorted_sorted l :
  (∀ a b, lt a b = true → lt b a = false) → Sorted (py_le lt) (py_sorted lt l).
Proof.
  intros Hasym. induction l as [|x l IH]; simpl; [constructor|].
  by apply py_insert_sorted.
Qed.

(** A list that is already in order is left as it is. *)
Lemma py_sorted_id l :
  Sorted (py_le lt) l → py_sorted lt l = l.
Proof.
  induction 1 as [|x l Hl IH Hhd]; simpl; [done|].
  rewrite IH. destruct Hhd as [|y l' Hxy]; simpl; [done|].
  unfold py_le in Hxy. by rewrite Hxy.
Qed.

End PySortFacts.

(** ** The order of paths *)

Lemma ascii_compare_refl a : Ascii.compare a a = Eq.
Proof. unfold Ascii.compare. apply N.compare_refl. Qed.

Lemma ascii_compare_lt_trans a b c :
  Ascii.compare a b = Lt → Ascii.compare b c = Lt → Ascii.compare a c = Lt.
Proof.
  unfold Ascii.compare. rewrite !N.compare_lt_iff. apply N.lt_trans.
Qed.

Lemma string_compare_refl s : String.compare s s = Eq.
Proof.
  induction s as [|a s IH]; simpl; [done|]. by rewrite ascii_compare_refl.
Qed.

Lemma string_compare_lt_trans s1 s2 s3 :
  String.compare s1 s2 = Lt → String.compare s2 s3 = Lt → String.compare s1 s3 = Lt.
Proof.
  revert s2 s3. induction s1 as [|a s1 IH]; intros [|b s2] [|c s3]; simpl; try done.
  destruct (Ascii.compare a b) eqn:Eab; [|..|done];
    destruct (Ascii.compare b c) eqn:Ebc; try done.
  - apply Ascii.compare_eq_iff in Eab, Ebc. subst.
    rewrite ascii_compare_refl. apply IH.
  - apply Ascii.compare_eq_iff in Eab. subst. by rewrite Ebc.
  - apply Ascii.compare_eq_iff in Ebc. subst. by rewrite Eab.
  - by rewrite (ascii_compare_lt_trans a b c).
Qed.

Lemma path_compare_antisym p q : path_compare p q = CompOpp (path_compare q p).
Proof.
  revert q. induction p as [|a p IH]; intros [|b q]; simpl; try done.
  rewrite (String.compare_antisym a b).
  destruct (String.compare b a); simpl; [apply IH|done..].
Qed.

Lemma path_compare_eq p q : path_compare p q = Eq → p = q.
Proof.
  revert q. induction p as [|a p IH]; intros [|b q]; simpl; try done.
  destruct (String.compare a b) eqn:E; try done.
  apply String.compare_eq_iff in E. intros ?%IH. by subst.
Qed.

Lemma path_compare_refl p : path_compare p p = Eq.
Proof.
  induction p as [|a p IH]; simpl; [done|]. by rewrite string_compare_refl.
Qed.

Lemma path_compare_lt_trans p q r :
  path_compare p q = Lt → path_compare q r = Lt → path_compare p r = Lt.
Proof.
  revert q r. induction p as [|a p IH]; intros [|b q] [|c r]; simpl; try done.
  destruct (String.compare a b) eqn:Eab; [|..|done];
    destruct (String.compare b c) eqn:Ebc; try done.
  - apply String.compare_eq_iff in Eab, Ebc. subst.
    rewrite string_compare_refl. apply IH.
  - apply String.compare_eq_iff in Eab. subst. by rewrite Ebc.
  - apply String.compare_eq_iff in Ebc. subst. by rewrite Eab.
  - by rewrite (string_compare_lt_trans a b c).
Qed.

Lemma path_lt_asym p q : path_lt p q = true → path_lt q p = false.
Proof.
  unfold path_lt. rewrite (path_compare_antisym q p).
  by destruct (path_compare p q).
Qed.

Lemma path_le_cases p q :
  py_le path_lt p q ↔ path_compare p q = Lt ∨ p = q.
Proof.
  unfold py_le, path_lt. rewrite (path_compare_antisym q p). split.
  - destruct (path_compare p q) eqn:E; simpl; try done; [|by left].
    right. by apply path_compare_eq.
  - intros [->| ->]; [done|]. by rewrite path_compare_refl.
Qed.

#[local] Instance path_le_trans : Transitive (py_le path_lt).
Proof.
  intros p q r. rewrite !path_le_cases.
  intros [Hpq| ->] [Hqr| ->]; eauto using path_compare_lt_trans.
Qed.

#[local] Instance path_le_antisymm : AntiSymm (=) (py_le path_lt).
Proof.
  intros p q. rewrite !path_le_cases.
  intros [Hpq| ->] [Hqp|E]; try done.
  rewrite (path_compare_antisym q p), Hpq in Hqp. done.
Qed.

(** Sorting a listing gives the same result whatever the order in which
    the directory was enumerated. *)
Lemma path_sort_order_independent (l1 l2 : list path) :
  l1 ≡ₚ l2 → py_sorted path_lt l1 = py_sorted path_lt l2.
Proof.
  intros Hp. apply (Sorted_unique (py_le path_lt)).
  - apply py_sorted_sorted, path_lt_asym.
  - apply py_sorted_sorted, path_lt_asym.
  - by rewrite !py_sorted_perm.
Qed.

(** ** CorpusScanner *)

Lemma path_name_snoc (d : path) (n : string) : path_name (d ++ [n]) = n.
Proof. unfold path_name. by rewrite last_snoc. Qed.

Lemma filter_fmap_comm {A B} (f : A → B) (P : B → bool) (l : list A) :
  List.filter P (f <$> l) = f <$> List.filter (λ x, P (f x)) l.
Proof.
  induction l as [|x l IH]; [done|]. cbn. destruct (P (f x)); cbn; by rewrite IH.
Qed.

Lemma pdf_entries_by_name (env : Env) (src_dir : path) (names : list string) :
  List.filter
    (λ f, is_file env f && String.eqb (str_lower (suffix (path_name f))) ".pdf")
    ((λ n, src_dir ++ [n]) <$> names)
  = (λ n, src_dir ++ [n]) <$>
      List.filter
        (λ n, is_file env (src_dir ++ [n]) && String.eqb (str_lower (suffix n)) ".pdf")
        names.
Proof.
  rewrite filter_fmap_comm. f_equal. apply filter_ext.
  intros n. by rewrite path_name_snoc.
Qed.

Lemma filter_Permutation_bool {A} (P : A → bool) (l1 l2 : list A) :
  l1 ≡ₚ l2 → List.filter P l1 ≡ₚ List.filter P l2.
Proof.
  induction 1 as [|x l1 l2 Hp IH|x y l|l1 l2 l3 H1 IH1 H2 IH2]; simpl.
  - done.
  - destruct (P x); by rewrite IH.
  - destruct (P x), (P y); try done. apply Permutation_swap.
  - by rewrite IH1.
Qed.

(** C9. For an existing directory [list_pdf_files] returns, sorted, the
    resolved paths of exactly those direct entries that are regular files
    with the extension ".pdf" (in any letter case), one per entry, and the
    result does not depend on the order in which the directory is
    enumerated; for anything that is not a directory it raises
    [SystemExit], which no [except Exception] catches, so [main] ends with
    it. *)
Theorem list_pdf_files_spec `{Hasher} (env : Env) (src_dir : path) :
  match list_pdf_files env src_dir with
  | Ok l =>
      is_dir env src_dir = true
      ∧ Sorted (py_le path_lt) l
      ∧ (∀ q, q ∈ l ↔
           ∃ n, n ∈ listdir env src_dir
                ∧ is_file env (src_dir ++ [n]) = true
                ∧ str_lower (suffix n) = ".pdf"
                ∧ q = resolve env (src_dir ++ [n]))
      ∧ length l =
          length (List.filter
                    (λ n, is_file env (src_dir ++ [n])
                          && String.eqb (str_lower (suffix n)) ".pdf")
                    (listdir env src_dir))
      ∧ (∀ env', is_dir env' = is_dir env → is_file env' = is_file env →
                 resolve env' = resolve env →
                 listdir env' src_dir ≡ₚ listdir env src_dir →
                 list_pdf_files env' src_dir = Ok l)
  | Raise e =>
      is_dir env src_dir = false
      ∧ e = SystemExit ("SOURCE_DIR not found or not a directory: " +:+ str_path src_dir)
      ∧ is_Exception e = false
      ∧ ∀ w, main env src_dir w = (Raise e, w)
  end.
Proof.
  unfold list_pdf_files. destruct (is_dir env src_dir) eqn:Hdir.
  - rewrite pdf_entries_by_name.
    split; [done|]. split; [apply py_sorted_sorted, path_lt_asym|].
    split; [|split].
    + intros q. rewrite py_sorted_perm, <- list_fmap_compose, list_elem_of_fmap.
      split.
      * intros (n & -> & Hn). apply list_elem_of_In, filter_In in Hn.
        destruct Hn as [Hin Hp]. apply list_elem_of_In in Hin.
        apply andb_true_iff in Hp as [Hfile Hsfx].
        apply String.eqb_eq in Hsfx. by exists n.
      * intros (n & Hn & Hfile & Hsfx & ->). exists n.
        split; [done|]. apply list_elem_of_In, filter_In. split.
        -- by apply list_elem_of_In.
        -- rewrite Hfile, Hsfx. done.
    + by rewrite py_sorted_perm, !length_fmap.
    + intros env' Ed Ef Er Hperm.
      rewrite Ed, Hdir, pdf_entries_by_name, Ef, Er. f_equal.
      apply path_sort_order_independent.
      by apply fmap_Permutation, fmap_Permutation, filter_Permutation_bool.
  - repeat split; try done.
    intros w. unfold main, bind, lift, list_pdf_files. by rewrite Hdir.
Qed.

(** The listing of the example directory, and of a path that is none. *)
Lemma list_pdf_files_example :
  list_pdf_files demo_dir_env ["docs"] = Ok [["docs"; "a.pdf"]; ["docs"; "b.PDF"]]
  ∧ list_pdf_files demo_dir_env ["nowhere"]
    = Raise (SystemExit "SOURCE_DIR not found or not a directory: /nowhere").
Proof. split; by vm_compute. Qed.

(** ** PageWorkerPool *)

Lemma sort_by_page_unfold l : sort_by_page l = py_sorted key_lt l.
Proof. done. Qed.

Lemma key_le_iff a b : py_le key_lt a b ↔ (a.1 ≤ b.1)%nat.
Proof. unfold py_le, key_lt. by rewrite Nat.ltb_ge. Qed.

#[local] Instance key_le_trans : Transitive (py_le key_lt).
Proof. intros a b c. rewrite !key_le_iff. lia. Qed.

Lemma key_lt_asym a b : key_lt a b = true → key_lt b a = false.
Proof. unfold key_lt. rewrite Nat.ltb_lt, Nat.ltb_ge. lia. Qed.

Lemma increasing_sorted l : increasing l → Sorted (py_le key_lt) l.
Proof.
  induction 1 as [|z l Hl IH Hz]; constructor; [done|].
  destruct Hz as [|y l' Hzy _]; constructor.
  apply key_le_iff. lia.
Qed.

Lemma increasing_key_inj l x y :
  increasing l → x ∈ l → y ∈ l → x.1 = y.1 → x = y.
Proof.
  induction 1 as [|z l Hl IH Hz]; intros Hx Hy E; [by inversion Hx|].
  rewrite Forall_forall in Hz.
  apply elem_of_cons in Hx as [->|Hx'];
    apply elem_of_cons in Hy as [->|Hy']; try done.
  - specialize (Hz y Hy'). simpl in Hz. lia.
  - specialize (Hz x Hx'). simpl in Hz. lia.
  - by apply IH.
Qed.

Lemma increasing_filter (P : nat * string → bool) l :
  increasing l → increasing (List.filter P l).
Proof.
  induction 1 as [|z l Hl IH Hz]; simpl; [constructor|].
  destruct (P z); [|done]. constructor; [done|].
  rewrite Forall_forall in *. intros x Hx.
  apply list_elem_of_In, filter_In in Hx as [Hx _]. by apply Hz, list_elem_of_In.
Qed.

Lemma increasing_imap (f : nat → bytes → nat * string) (k : nat) (l : list bytes) :
  (∀ i x, (f i x).1 = (k + i)%nat) → increasing (imap f l).
Proof.
  revert f k. induction l as [|x l IH]; intros f k Hf; [constructor|].
  rewrite imap_cons. constructor.
  - apply (IH _ (S k)). intros i y. simpl. rewrite Hf. lia.
  - rewrite Forall_forall. intros y Hy.
    apply list_elem_of_lookup in Hy as [i Hi].
    rewrite list_lookup_imap in Hi.
    destruct (l !! i) as [z|]; simpl in Hi; [|done].
    injection Hi as <-. rewrite !Hf. lia.
Qed.

Lemma numbered_increasing env images : increasing (numbered env images).
Proof. apply (increasing_imap _ 1). intros i x. simpl. lia. Qed.

(** Sorting by page number puts any rearrangement of an increasing list
    back in page order. *)
Lemma sort_by_page_restores l l' :
  increasing l → l' ≡ₚ l → sort_by_page l' = l.
Proof.
  intros Hinc Hperm. rewrite sort_by_page_unfold.
  apply (Sorted_unique_strong (py_le key_lt)).
  - intros x1 x2 Hx1 Hx2 H12 H21. apply key_le_iff in H12, H21.
    apply (increasing_key_inj l); [done| |done|lia].
    by rewrite <- Hperm, <- (py_sorted_perm key_lt).
  - apply py_sorted_sorted, key_lt_asym.
  - by apply increasing_sorted.
  - by rewrite py_sorted_perm.
Qed.

Lemma as_completed_perm {A} (order : list nat) (futures : list A) :
  as_completed order futures ≡ₚ futures.
Proof.
  revert futures. induction order as [|i order IH]; intros futures; simpl; [done|].
  destruct (futures !! i) as [f|] eqn:E; [|apply IH].
  rewrite IH. symmetry. by apply delete_Permutation.
Qed.

Section PoolFacts.
Context `{Hasher} (env : Env).

Lemma worker_make_tasks images :
  ocr_bytes_worker env <$> make_tasks env images = numbered env images.
Proof.
  unfold make_tasks, numbered. rewrite fmap_imap. by apply imap_ext.
Qed.

Lemma worker_page t : (ocr_bytes_worker env t).1 = task_page t.
Proof. by destruct t as [[[img n] tcmd] lang]. Qed.

(** When recognition raises, the worker returns the page number with an
    empty text. *)
Lemma ocr_bytes_worker_failure img page_no tcmd lang :
  image_to_string env img (lang_arg lang) = None →
  ocr_bytes_worker env (img, page_no, tcmd, lang) = (page_no, "").
Proof. intros E. unfold ocr_bytes_worker. by rewrite E. Qed.

Lemma worker_filter (pb : PoolBehaviour) (ts : list task) :
  ocr_bytes_worker env <$>
    List.filter (λ t, negb (result_raises pb (task_page t))) ts
  = List.filter (λ p, negb (result_raises pb p.1)) (ocr_bytes_worker env <$> ts).
Proof.
  rewrite filter_fmap_comm. f_equal. apply filter_ext.
  intros t. by rewrite worker_page.
Qed.

(** What [collect_pages] returns when [Executor.map] delivers everything. *)
Lemma collect_pages_map pb images w :
  map_yields pb = None →
  fst (collect_pages env pb (make_tasks env images) w) = Ok (numbered env images).
Proof.
  intros E. unfold collect_pages. rewrite E. by rewrite worker_make_tasks.
Qed.

(** ... and when it raises at once and the resubmission goes through. *)
Lemma collect_pages_fallback pb images w :
  map_yields pb = Some O → submit_raises pb = false →
  ∃ l, fst (collect_pages env pb (make_tasks env images) w) = Ok l
       ∧ l ≡ₚ List.filter (λ p, negb (result_raises pb p.1)) (numbered env images).
Proof.
  intros E1 E2. unfold collect_pages. rewrite E1, E2. simpl.
  eexists. split; [reflexivity|].
  rewrite worker_filter, <- worker_make_tasks.
  apply filter_Permutation_bool, fmap_Permutation, as_completed_perm.
Qed.

End PoolFacts.

(** ** Page order and fault isolation *)

Section ExtractFacts.
Context `{Hasher} (env : Env).

Lemma collect_pages_fst pb tasks w w' :
  fst (collect_pages env pb tasks w) = fst (collect_pages env pb tasks w').
Proof.
  unfold collect_pages, bind, log, raise, ret.
  destruct (map_yields pb); [destruct (submit_raises pb)|]; done.
Qed.

Lemma extract_pages_fst pdf images w :
  convert_from_path env pdf = Some images →
  fst (extract_pages env pdf w) =
    match make_tasks env images with
    | [] => Ok []
    | _ :: _ =>
        match fst (collect_pages env (pool env pdf) (make_tasks env images) w) with
        | Ok collected => Ok (snd <$> sort_by_page collected)
        | Raise e => Raise e
        end
    end.
Proof.
  intros E. unfold extract_pages, bind, try_except, log, lift, ret. rewrite E. simpl.
  destruct (make_tasks env images) as [|t ts] eqn:Et; [done|].
  match goal with |- context [collect_pages env ?pb ?ts ?w0] =>
    rewrite (collect_pages_fst (pool env pdf) ts w w0);
    destruct (collect_pages env pb ts w0) as [[c|e] w1] end; done.
Qed.

Lemma snd_numbered images : snd <$> numbered env images = page_text env <$> images.
Proof.
  unfold numbered. rewrite fmap_imap, <- imap_const. by apply imap_ext.
Qed.

(** The pool delivers: every page, in page order. *)
Lemma extract_pages_delivered pdf images w :
  convert_from_path env pdf = Some images →
  map_yields (pool env pdf) = None →
  fst (extract_pages env pdf w) = Ok (page_text env <$> images).
Proof.
  intros Ec Em. rewrite (extract_pages_fst pdf images w Ec).
  destruct (make_tasks env images) as [|t ts] eqn:Et.
  - destruct images; [done|discriminate].
  - rewrite <- Et, collect_pages_map by done.
    rewrite sort_by_page_unfold, py_sorted_id, snd_numbered; [done|].
    apply increasing_sorted, numbered_increasing.
Qed.

(** The fallback: the pages whose future succeeds, in page order. *)
Lemma extract_pages_resubmitted pdf images w :
  convert_from_path env pdf = Some images →
  map_yields (pool env pdf) = Some O →
  submit_raises (pool env pdf) = false →
  fst (extract_pages env pdf w) = Ok (surviving_pages env (pool env pdf) images).
Proof.
  intros Ec Em Es. rewrite (extract_pages_fst pdf images w Ec).
  destruct (make_tasks env images) as [|t ts] eqn:Et.
  - destruct images; [done|discriminate].
  - rewrite <- Et.
    destruct (collect_pages_fallback env (pool env pdf) images w Em Es) as (l & -> & Hl).
    unfold surviving_pages. do 2 f_equal.
    apply sort_by_page_restores; [|done].
    apply increasing_filter, numbered_increasing.
Qed.

Lemma surviving_all pb images :
  (∀ n, result_raises pb n = false) →
  surviving_pages env pb images = page_text env <$> images.
Proof.
  intros Hr. unfold surviving_pages. rewrite <- snd_numbered. f_equal.
  induction (numbered env images) as [|p l IH]; simpl; [done|].
  by rewrite Hr, IH.
Qed.

(** When the pool hands back every result, the page list is the list of
    the page texts, in page order. *)
Lemma extract_pages_all pdf images w :
  convert_from_path env pdf = Some images →
  pool_delivers (pool env pdf) →
  fst (extract_pages env pdf w) = Ok (page_text env <$> images).
Proof.
  intros Ec [Em|(Em & Es & Hr)].
  - by apply extract_pages_delivered.
  - rewrite (extract_pages_resubmitted pdf images w Ec Em Es).
    by rewrite surviving_all.
Qed.

End ExtractFacts.

(** C3 (amended). When [Executor.map] delivers every result, the page
    list has the length of the input and its i-th element is the text of
    the i-th page.  When [Executor.map] raises before delivering anything
    and the tasks can be resubmitted, the list holds, in page order and
    whatever the order in which the futures complete, the texts of exactly
    the pages whose future did not fail. *)
Theorem extract_pages_in_page_order `{Hasher} (env : Env) (pdf : path)
    (images : list bytes) (w : world) :
  convert_from_path env pdf = Some images →
  (map_yields (pool env pdf) = None →
     ∃ l, fst (extract_pages env pdf w) = Ok l
          ∧ length l = length images
          ∧ ∀ i img, images !! i = Some img → l !! i = Some (page_text env img))
  ∧ (map_yields (pool env pdf) = Some O → submit_raises (pool env pdf) = false →
     fst (extract_pages env pdf w) = Ok (surviving_pages env (pool env pdf) images)
     ∧ ((∀ n, result_raises (pool env pdf) n = false) →
        surviving_pages env (pool env pdf) images = page_text env <$> images)).
Proof.
  intros Ec. split.
  - intros Em. exists (page_text env <$> images).
    split; [by apply extract_pages_delivered|].
    split; [by rewrite length_fmap|].
    intros i img Hi. by rewrite list_lookup_fmap, Hi.
  - intros Em Es. split; [by apply extract_pages_resubmitted|].
    apply surviving_all.
Qed.

Lemma extract_pages_in_page_order_witness :
  (∃ l, fst (extract_pages demo_env demo_doc fresh_world) = Ok l
        ∧ length l = 5%nat
        ∧ ∀ i img, demo_pages !! i = Some img → l !! i = Some (page_text demo_env img))
  ∧ fst (extract_pages (with_pool degraded_pool demo_env) demo_doc fresh_world)
    = Ok ["one"; ""; "four"; "five"].
Proof.
  split.
  - apply (extract_pages_in_page_order demo_env demo_doc demo_pages fresh_world);
      reflexivity.
  - apply (extract_pages_in_page_order (with_pool degraded_pool demo_env)
             demo_doc demo_pages fresh_world); reflexivity.
Defined.

(** C3 as the specification states it fails in the fallback: with five pages
    submitted, the page list has four elements and its second element is
    the text of the third page. *)
Lemma pages_dropped_in_fallback :
  convert_from_path (with_pool degraded_pool demo_env) demo_doc = Some demo_pages
  ∧ ∃ l, fst (extract_pages (with_pool degraded_pool demo_env) demo_doc fresh_world) = Ok l
         ∧ length l ≠ length demo_pages
         ∧ l !! 1%nat ≠ (page_text demo_env <$> demo_pages) !! 1%nat.
Proof.
  split; [reflexivity|].
  exists ["one"; ""; "four"; "five"]. split; [by vm_compute|].
  split; [by vm_compute|]. by vm_compute.
Qed.

(** C4. A page whose recognition raises yields [(page_no, "")] from the
    worker instead of an exception, so the pool has nothing to propagate:
    whenever the pool hands back the results, the document's page list has
    one element per page -- the empty string for the failing page, the
    recognised text for every other page. *)
Theorem recognition_failure_is_isolated `{Hasher} (env : Env) (pdf : path)
    (images : list bytes) (w : world) (i : nat) (img : bytes) :
  convert_from_path env pdf = Some images →
  pool_delivers (pool env pdf) →
  images !! i = Some img →
  image_to_string env img (lang_arg (default "" (OCR_LANG env))) = None →
  ocr_bytes_worker env
    (img, S i, default "" (TESSERACT_CMD env), default "" (OCR_LANG env)) = (S i, "")
  ∧ ∃ l, fst (extract_pages env pdf w) = Ok l
         ∧ length l = length images
         ∧ l !! i = Some ""
         ∧ ∀ j img' t, images !! j = Some img' →
             image_to_string env img' (lang_arg (default "" (OCR_LANG env))) = Some t →
             l !! j = Some t.
Proof.
  intros Ec Hpool Hi Hfail. split; [by apply ocr_bytes_worker_failure|].
  exists (page_text env <$> images).
  split; [by apply extract_pages_all|].
  split; [by rewrite length_fmap|].
  split.
  - rewrite list_lookup_fmap, Hi. simpl. unfold page_text. by rewrite Hfail.
  - intros j img' t Hj Ht. rewrite list_lookup_fmap, Hj. simpl.
    unfold page_text. by rewrite Ht.
Qed.

(** Five pages, the third of which cannot be recognised. *)
Lemma recognition_failure_is_isolated_witness :
  ocr_bytes_worker demo_env ([Byte.x03], 3%nat, "", "") = (3%nat, "")
  ∧ ∃ l, fst (extract_pages demo_env demo_doc fresh_world) = Ok l
         ∧ length l = 5%nat
         ∧ l !! 2%nat = Some ""
         ∧ ∀ j img' t, demo_pages !! j = Some img' →
             image_to_string demo_env img' None = Some t → l !! j = Some t.
Proof.
  apply (recognition_failure_is_isolated demo_env demo_doc demo_pages fresh_world
           2 [Byte.x03]); try reflexivity.
  by left.
Defined.

(** ** CacheStore: running the file-system steps *)

Lemma crash_after_cons k op ops fs :
  crash_after (S k) (op :: ops) fs = crash_after k ops (apply_op op fs).
Proof. done. Qed.

Lemma crash_after_app k ops1 ops2 fs :
  crash_after (length ops1 + k) (ops1 ++ ops2) fs
  = crash_after k ops2 (crash_after (length ops1) ops1 fs).
Proof.
  revert fs. induction ops1 as [|op ops1 IH]; intros fs; simpl; [done|].
  rewrite !crash_after_cons. apply IH.
Qed.

Lemma crash_after_app_l k ops1 ops2 fs :
  (k ≤ length ops1)%nat →
  crash_after k (ops1 ++ ops2) fs = crash_after k ops1 fs.
Proof. intros Hk. unfold crash_after. by rewrite take_app_le. Qed.

Lemma completed_le fails ops : (completed fails ops ≤ length ops)%nat.
Proof. induction ops as [|op ops IH]; simpl; [done|]. destruct (fails op); lia. Qed.

Lemma completed_app fails ops1 ops2 :
  completed fails (ops1 ++ ops2) =
    if (completed fails ops1 =? length ops1)%nat
    then (length ops1 + completed fails ops2)%nat
    else completed fails ops1.
Proof.
  induction ops1 as [|op ops1 IH]; simpl; [done|].
  destruct (fails op); [done|]. rewrite IH.
  change (S (completed fails ops1) =? S (length ops1))%nat
    with (completed fails ops1 =? length ops1)%nat.
  by destruct (completed fails ops1 =? length ops1)%nat.
Qed.

Section StoreFacts.
Context `{Hasher} (env : Env).

Lemma fs_exec_all_run ops w :
  fs_exec_all env ops w =
    (if (completed (io_fails env) ops =? length ops)%nat then Ok tt else Raise OSError,
     World (w_index w)
           (crash_after (completed (io_fails env) ops) ops (w_files w))
           (w_trace w)).
Proof.
  revert w. induction ops as [|op ops IH]; intros [idx fs tr]; simpl; [done|].
  unfold bind, fs_exec. simpl. destruct (io_fails env op); simpl; [done|].
  rewrite IH. simpl. by rewrite crash_after_cons.
Qed.

Lemma persist_run abs_path mtime size sha pages_text idx fs tr :
  let ops := persist_ops abs_path mtime size sha pages_text idx in
  let k := completed (io_fails env) ops in
  persist env abs_path mtime size sha pages_text (World (JDict idx) fs tr) =
    (if (k =? 6)%nat then Ok tt else Raise OSError,
     World (if (3 <=? k)%nat
            then JDict (<[abs_path := index_entry mtime size sha (sha +:+ ".json")]> idx)
            else JDict idx)
           (crash_after k ops fs) tr).
Proof.
  intros ops k. subst ops k. unfold persist_ops, persist, save_index, safe_write_json.
  set (ops1 := safe_write_json_ops (sha +:+ ".json") _).
  set (ops2 := safe_write_json_ops INDEX_FILE _).
  assert (length ops1 = 3%nat) as L1 by done.
  assert (length ops2 = 3%nat) as L2 by done.
  pose proof (completed_le (io_fails env) ops1) as Hle1.
  pose proof (completed_le (io_fails env) ops2) as Hle2.
  unfold bind at 1. rewrite fs_exec_all_run, completed_app, L1.
  cbn [w_index w_files w_trace].
  destruct (Nat.eqb_spec (completed (io_fails env) ops1) 3) as [E|NE].
  - rewrite E. unfold bind, index_setitem, get_index. cbn [w_index w_files w_trace].
    rewrite fs_exec_all_run. cbn [w_index w_files w_trace]. fold ops2.
    pose proof (crash_after_app (completed (io_fails env) ops2) ops1 ops2 fs) as Happ.
    rewrite L1 in Happ. rewrite Happ, L2. clearbody ops1 ops2.
    destruct (completed (io_fails env) ops2) as [|[|[|[|n]]]]; try done; lia.
  - rewrite crash_after_app_l by lia. clearbody ops1 ops2.
    destruct (completed (io_fails env) ops1) as [|[|[|n]]]; try done; lia.
Qed.

End StoreFacts.

(** ** ExtractionCoordinator: how a call unfolds *)

Section CoordinatorFacts.
Context `{Hasher} (env : Env).

Lemma try_cache_run entry mtime size w :
  ∃ r, try_cache entry mtime size w = (r, w)
       ∧ ∀ data, r = Ok (Some data) ↔ entry_hit entry mtime size (w_files w) data.
Proof.
  unfold try_cache, entry_hit.
  destruct (truthy entry) eqn:Ht.
  2:{ eexists. split; [reflexivity|]. intros data. split; [done|].
      intros (e & cf & -> & _ & _ & Hcf & _). simpl in Ht.
      apply negb_false_iff, bool_decide_eq_true in Ht. subst. by rewrite lookup_empty in Hcf. }
  destruct entry as [| | | | |e]; munfold; simpl;
    try (eexists; split; [reflexivity|]; intros data; split;
         [done | by intros (e & cf & ? & _)]).
  destruct (py_eq_int (default JNull (e !! "mtime")) mtime) eqn:Em.
  2:{ eexists. split; [reflexivity|]. intros data. split; [done|].
      intros (e' & cf & [= <-] & Hm & _). congruence. }
  destruct (py_eq_int (default JNull (e !! "size")) size) eqn:Es.
  2:{ eexists. split; [reflexivity|]. intros data. split; [done|].
      intros (e' & cf & [= <-] & _ & Hs & _). congruence. }
  destruct (e !! "cache_file") as [cfv|] eqn:Ecf.
  2:{ eexists. split; [reflexivity|]. intros data. split; [done|].
      intros (e' & cf & [= <-] & _ & _ & Hcf & _). congruence. }
  destruct cfv as [| | |cf| |]; simpl;
    try (eexists; split; [reflexivity|]; intros data; split;
         [done | intros (e' & cf' & [= <-] & _ & _ & Hcf & _); congruence]).
  destruct (w_files w !! cf) as [[d|]|] eqn:Ef;
    (eexists; split; [reflexivity|]; intros data; split;
     [ intros [= <-]; by exists e, cf
     | intros (e' & cf' & [= <-] & _ & _ & Hcf & Hf);
       rewrite Ecf in Hcf; injection Hcf as <-; congruence ]).
Qed.

(** [ocr_pdf_with_cache] once the metadata and the index are at hand. *)
Lemma ocr_unfold pdf st idx w :
  stat env pdf = Some st → w_index w = JDict idx →
  ocr_pdf_with_cache env pdf w =
    match fst (try_cache (default JNull (idx !! str_path (resolve env pdf)))
                 (py_int (st_mtime st)) (st_size st) w) with
    | Ok (Some data) => (Ok data, w)
    | Ok None =>
        process env pdf (str_path (resolve env pdf)) (py_int (st_mtime st)) (st_size st) w
    | Raise e => (Raise e, w)
    end.
Proof.
  intros Es Ei. unfold ocr_pdf_with_cache. munfold. rewrite Es, Ei. simpl.
  destruct (try_cache_run (default JNull (idx !! str_path (resolve env pdf)))
              (py_int (st_mtime st)) (st_size st) w) as (r & -> & _).
  simpl. by destruct r as [[d|]|e].
Qed.

(** A cache hit returns the stored document and touches nothing. *)
Lemma ocr_hit pdf w data :
  cache_hit env pdf w data → ocr_pdf_with_cache env pdf w = (Ok data, w).
Proof.
  intros (st & idx & entry & Es & Ei & Hentry & Hhit).
  rewrite (ocr_unfold pdf st idx w Es Ei), Hentry. simpl.
  destruct (try_cache_run entry (py_int (st_mtime st)) (st_size st) w) as (r & -> & Hr).
  simpl. apply Hr in Hhit. by subst.
Qed.

(** [extract_pages] only reads the environment and only adds events. *)
Lemma extract_pages_run pdf :
  ∃ r evs, ∀ w,
    extract_pages env pdf w = (r, World (w_index w) (w_files w) (w_trace w ++ evs)).
Proof.
  unfold extract_pages, collect_pages. munfold.
  destruct (convert_from_path env pdf) as [images|]; simpl.
  - destruct (make_tasks env images) as [|t ts]; simpl.
    + eexists _, _. intros w. reflexivity.
    + destruct (map_yields (pool env pdf)) as [k|]; simpl.
      * destruct (submit_raises (pool env pdf)); simpl.
        -- eexists _, _. intros w. rewrite <- !app_assoc. reflexivity.
        -- eexists _, _. intros w. rewrite <- !app_assoc. reflexivity.
      * eexists _, _. intros w. rewrite <- !app_assoc. reflexivity.
  - eexists _, _. intros w. rewrite <- !app_assoc. reflexivity.
Qed.

(** A document without pages: nothing but the two log lines. *)
Lemma extract_pages_nothing pdf w :
  convert_from_path env pdf = None ∨ convert_from_path env pdf = Some [] →
  fst (extract_pages env pdf w) = Ok [].
Proof.
  intros [E|E]; unfold extract_pages; munfold; rewrite E; done.
Qed.

(** The two ways [process] can go: it stops before persisting anything,
    or it has the digest and a non-empty page list and runs [persist]. *)
Lemma process_cases pdf abs_path mtime size idx fs tr :
  let w := World (JDict idx) fs tr in
  ∃ evs,
    (∃ e, process env pdf abs_path mtime size w =
            (Raise e, World (JDict idx) fs (tr ++ EvProcessing pdf :: EvHash pdf :: evs))
          ∧ (open_rb env pdf = None
             ∨ ∀ p ps, fst (extract_pages env pdf w) ≠ Ok (p :: ps)))
    ∨ (∃ data p ps,
         open_rb env pdf = Some data
         ∧ fst (extract_pages env pdf w) = Ok (p :: ps)
         ∧ let sha := sha256_hex data in
           let ops := persist_ops abs_path mtime size sha (p :: ps) idx in
           let k := completed (io_fails env) ops in
           process env pdf abs_path mtime size w =
             (if (k =? 6)%nat
              then Ok (record_data abs_path mtime size sha (sha +:+ ".json") (p :: ps))
              else Raise OSError,
              World (if (3 <=? k)%nat
                     then JDict (<[abs_path := index_entry mtime size sha (sha +:+ ".json")]> idx)
                     else JDict idx)
                    (crash_after k ops fs)
                    (tr ++ EvProcessing pdf :: EvHash pdf :: evs))).
Proof.
  intros w. subst w. destruct (extract_pages_run pdf) as (r & evs & Hrun).
  assert (∀ w, fst (extract_pages env pdf w) = r) as Hfst
    by (intros w; by rewrite Hrun).
  unfold process, bind, log, lift, file_sha256. cbn [w_index w_files w_trace].
  destruct (open_rb env pdf) as [data|] eqn:Eo.
  2:{ exists []. left. exists OSError. rewrite <- app_assoc. split; [done|by left]. }
  exists evs. rewrite hash_blocks_whole by done. fold (sha256_hex data).
  rewrite Hrun, !Hfst. cbn [w_index w_files w_trace]. rewrite <- !app_assoc.
  change ([EvProcessing pdf] ++ [EvHash pdf] ++ evs)
    with (EvProcessing pdf :: EvHash pdf :: evs).
  destruct r as [[|p ps]|e].
  - left. exists UnboundLocalError. split; [done|]. by right.
  - right. exists data, p, ps. split; [done|]. split; [done|].
    cbv zeta. rewrite persist_run. cbv zeta.
    by destruct (completed _ _ =? 6)%nat.
  - left. exists e. split; [done|]. by right.
Qed.

End CoordinatorFacts.

(** ** File names *)

Lemma string_length_app (s t : string) :
  String.length (s +:+ t) = (String.length s + String.length t)%nat.
Proof. induction s as [|c s IH]; simpl; [done|]. by rewrite IH. Qed.

Lemma string_app_assoc (s t u : string) : (s +:+ t) +:+ u = s +:+ (t +:+ u).
Proof.
  induction s as [|c s IH]; [done|].
  change (String c ((s +:+ t) +:+ u) = String c (s +:+ t +:+ u)). by f_equal.
Qed.

Lemma substring_whole (s : string) : String.substring 0 (String.length s) s = s.
Proof. induction s as [|c s IH]; simpl; [done|]. by rewrite IH. Qed.

Lemma substring_length (s : string) (n m : nat) :
  (n + m ≤ String.length s)%nat → String.length (String.substring n m s) = m.
Proof.
  revert n m. induction s as [|c s IH]; intros [|n] [|m]; simpl; try lia.
  - intros Hle. rewrite (IH 0%nat m); [done|lia].
  - intros Hle. apply (IH n 0%nat). lia.
  - intros Hle. apply (IH n (S m)). lia.
Qed.

Lemma string_app_cons (c : ascii) (s t : string) :
  String c s +:+ t = String c (s +:+ t).
Proof. done. Qed.

Lemma substring_split (s : string) (i : nat) :
  (i ≤ String.length s)%nat →
  String.substring 0 i s +:+ String.substring i (String.length s - i) s = s.
Proof.
  revert i. induction s as [|c s IH]; intros [|i]; simpl; try done; try lia.
  - intros _. change (String c (String.substring 0 (String.length s) s) = String c s).
    f_equal. apply substring_whole.
  - intros Hle. rewrite string_app_cons. f_equal. apply IH. lia.
Qed.

Lemma rfind_dot_lt (s : string) (i : nat) :
  rfind_dot s = Some i → (i < String.length s)%nat.
Proof.
  revert i. induction s as [|c s IH]; intros i; simpl; [done|].
  destruct (rfind_dot s) as [j|].
  - intros [= <-]. specialize (IH j eq_refl). lia.
  - destruct (Ascii.eqb c "."); [|done]. intros [= <-]. lia.
Qed.

(** The temporary file of [safe_write_json] is the destination's name
    followed by ".tmp": a file of the same directory. *)
Lemma tmp_name_app (name : string) : tmp_name name = name +:+ ".tmp".
Proof.
  unfold tmp_name, with_suffix.
  destruct (String.eqb_spec (suffix name) "") as [E|NE].
  - by rewrite E.
  - unfold suffix in *. destruct (rfind_dot name) as [i|] eqn:Ei; [|done].
    destruct ((0 <? i)%nat && (i <? String.length name - 1)%nat); [|done].
    apply rfind_dot_lt in Ei.
    rewrite substring_length by lia.
    replace (String.length name - (String.length name - i))%nat with i by lia.
    rewrite <- string_app_assoc. by rewrite substring_split by lia.
Qed.

Lemma safe_write_json_ops_steps (name : string) (obj : json) :
  safe_write_json_ops name obj =
    [OpOpen (name +:+ ".tmp"); OpDump (name +:+ ".tmp") obj;
     OpReplace (name +:+ ".tmp") name].
Proof. unfold safe_write_json_ops. by rewrite tmp_name_app. Qed.

(** A write that completes leaves the document under the destination name
    and no temporary file. *)
Lemma safe_write_done (name : string) (obj : json) (fs : gmap string content) :
  crash_after 3 (safe_write_json_ops name obj) fs
  = <[name := Doc obj]> (delete (name +:+ ".tmp") fs).
Proof.
  rewrite safe_write_json_ops_steps. unfold crash_after. simpl.
  rewrite lookup_insert_eq. by rewrite insert_insert_eq, delete_insert_eq.
Qed.

Lemma persist_done (abs_path : string) (mtime size : Z) (sha : string)
    (pages_text : list string) (idx : gmap string json) (fs : gmap string content) :
  let cf := sha +:+ ".json" in
  crash_after 6 (persist_ops abs_path mtime size sha pages_text idx) fs
  = <[INDEX_FILE := Doc (JDict (<[abs_path := index_entry mtime size sha cf]> idx))]>
      (delete (INDEX_FILE +:+ ".tmp")
         (<[cf := Doc (record_data abs_path mtime size sha cf pages_text)]>
            (delete (cf +:+ ".tmp") fs))).
Proof.
  intros cf. unfold persist_ops. fold cf.
  change 6%nat with (length (safe_write_json_ops cf
    (record_data abs_path mtime size sha cf pages_text)) + 3)%nat.
  rewrite crash_after_app.
  change (length (safe_write_json_ops cf _)) with 3%nat.
  by rewrite !safe_write_done.
Qed.

Lemma string_neq_by_length (s t : string) :
  String.length s ≠ String.length t → s ≠ t.
Proof. intros Hl ->. done. Qed.

Section NameFacts.
Context `{Hasher}.

(** The names a miss touches are pairwise distinct: a record file is
    named by 64 digits and ".json". *)
Lemma cache_names_distinct (h : hstate) :
  let cf := h_hexdigest h +:+ ".json" in
  cf ≠ INDEX_FILE ∧ cf ≠ INDEX_FILE +:+ ".tmp" ∧ cf +:+ ".tmp" ≠ INDEX_FILE
  ∧ cf +:+ ".tmp" ≠ INDEX_FILE +:+ ".tmp" ∧ cf +:+ ".tmp" ≠ cf.
Proof.
  intros cf. subst cf.
  repeat split; apply string_neq_by_length;
    rewrite ?string_length_app, h_hexdigest_length; simpl; lia.
Qed.

End NameFacts.

(** ** ExtractionCoordinator: the three outcomes of a call *)

Section OutcomeFacts.
Context `{Hasher} (env : Env).

(** A call raises before looking at the document, or is served from the
    cache, or is a miss and runs [process]. *)
Lemma ocr_outcomes pdf w :
  (∃ e, ocr_pdf_with_cache env pdf w = (Raise e, w)
        ∧ ∀ data, ¬ cache_hit env pdf w data)
  ∨ (∃ data, cache_hit env pdf w data
             ∧ ocr_pdf_with_cache env pdf w = (Ok data, w))
  ∨ (∃ st idx,
       stat env pdf = Some st ∧ w_index w = JDict idx
       ∧ (∀ data, ¬ cache_hit env pdf w data)
       ∧ ocr_pdf_with_cache env pdf w =
           process env pdf (str_path (resolve env pdf))
             (py_int (st_mtime st)) (st_size st) w).
Proof.
  destruct (stat env pdf) as [st|] eqn:Es.
  2:{ left. exists FileNotFoundError. split.
      - unfold ocr_pdf_with_cache. munfold. by rewrite Es.
      - intros data (st & ? & ? & ? & _). congruence. }
  destruct (w_index w) as [| | | | |idx] eqn:Ei;
    try (left; exists AttributeError; split;
         [ unfold ocr_pdf_with_cache; munfold; by rewrite Es, Ei
         | intros data (? & ? & ? & _ & ? & _); congruence ]).
  rewrite (ocr_unfold env pdf st idx w Es Ei).
  destruct (try_cache_run (default JNull (idx !! str_path (resolve env pdf)))
              (py_int (st_mtime st)) (st_size st) w) as (r & Er & Hr).
  rewrite Er. simpl.
  assert (∀ data, cache_hit env pdf w data → r = Ok (Some data)) as Hhit.
  { intros data (st' & idx' & entry & Es' & Ei' & Hentry & Hh).
    rewrite Es in Es'. injection Es' as <-. rewrite Ei in Ei'. injection Ei' as <-.
    apply Hr. by rewrite Hentry. }
  destruct r as [[data|]|e].
  - right. left. exists data. split; [|done].
    destruct (proj1 (Hr data) eq_refl) as (e & cf & Hent & Hrest).
    exists st, idx, (JDict e). repeat split; try done.
    + destruct (idx !! str_path (resolve env pdf)) as [v|]; simpl in Hent; by subst.
    + by exists e, cf.
  - right. right. exists st, idx. repeat split; try done.
    intros data Hd. by apply Hhit in Hd.
  - left. exists e. split; [done|]. intros data Hd. by apply Hhit in Hd.
Qed.

End OutcomeFacts.

(** ** Documents without pages *)

(** For a document whose rasterisation yields no page -- also when the
    rasteriser fails, which is recovered as no page -- a call writes
    nothing to the cache directory and leaves the index as it was: the
    document is a cache hit afterwards exactly if it was one before. *)
Lemma zero_pages_leave_store_unchanged `{Hasher} (env : Env) (pdf : path) (w : world) :
  convert_from_path env pdf = None ∨ convert_from_path env pdf = Some [] →
  let w' := snd (ocr_pdf_with_cache env pdf w) in
  w_files w' = w_files w
  ∧ w_index w' = w_index w
  ∧ ∀ data, cache_hit env pdf w' data ↔ cache_hit env pdf w data.
Proof.
  intros Hzero w'.
  assert (w_files w' = w_files w ∧ w_index w' = w_index w) as [Hf Hi].
  { subst w'. destruct (ocr_outcomes env pdf w)
      as [(e & -> & _)|[(data & _ & ->)|(st & idx & Es & Ei & _ & ->)]]; try done.
    destruct w as [index fs tr]. simpl in Ei. subst index.
    destruct (process_cases env pdf (str_path (resolve env pdf))
                (py_int (st_mtime st)) (st_size st) idx fs tr)
      as (evs & [(e & -> & _)|(data & p & ps & _ & Hp & _)]); [done|].
    by rewrite extract_pages_nothing in Hp. }
  split; [done|]. split; [done|].
  intros data. unfold cache_hit. rewrite Hf, Hi. done.
Qed.

Lemma zero_pages_leave_store_unchanged_witness :
  let w' := snd (ocr_pdf_with_cache (with_pages None demo_env) demo_doc fresh_world) in
  w_files w' = ∅ ∧ w_index w' = JDict ∅
  ∧ ∀ data, cache_hit (with_pages None demo_env) demo_doc w' data
            ↔ cache_hit (with_pages None demo_env) demo_doc fresh_world data.
Proof.
  apply (zero_pages_leave_store_unchanged (with_pages None demo_env) demo_doc fresh_world).
  by left.
Defined.

(** C1. The code on a document whose rasterisation fails.  The failure is
    recovered as no page; [if pages_text:] is then skipped, so [data] is
    never bound and [return data] raises [UnboundLocalError]: the call
    returns no record, although its docstring says it returns the data
    dict; no record file is written and the index gets no entry, in
    memory or on disk. *)
Lemma zero_pages_not_cached :
  let env := with_pages None demo_env in
  let out := ocr_pdf_with_cache env demo_doc fresh_world in
  convert_from_path env demo_doc = None
  ∧ fst out = Raise UnboundLocalError
  ∧ (¬ ∃ record, fst out = Ok record)
  ∧ w_files (snd out) = ∅
  ∧ w_index (snd out) = JDict ∅
  ∧ load_index (w_files (snd out)) = JDict ∅.
Proof.
  intros env out. split; [done|]. split; [by vm_compute|].
  split; [|by vm_compute]. intros [record Hr]. by vm_compute in Hr.
Qed.

(** ** Corrupted cache state *)

(** The test of [ocr_pdf_with_cache] on a dictionary entry that names its
    cache file. *)
Lemma try_cache_dict (e : gmap string json) (cf : string) (mtime size : Z) (w : world) :
  e !! "cache_file" = Some (JStr cf) →
  try_cache (JDict e) mtime size w =
    (Ok (if py_eq_int (default JNull (e !! "mtime")) mtime
            && py_eq_int (default JNull (e !! "size")) size
         then match w_files w !! cf with
              | Some (Doc data) => Some data
              | _ => None
              end
         else None), w).
Proof.
  intros Ecf. unfold try_cache. simpl.
  assert (bool_decide (e = ∅) = false) as ->.
  { apply bool_decide_eq_false. intros ->. by rewrite lookup_empty in Ecf. }
  munfold. simpl. rewrite Ecf. simpl.
  destruct (py_eq_int (default JNull (e !! "mtime")) mtime); simpl; [|done].
  destruct (py_eq_int (default JNull (e !! "size")) size); simpl; [|done].
  by destruct (w_files w !! cf) as [[d|]|].
Qed.

(** C6. An index file that is absent or does not parse is read as the
    empty mapping; an index entry whose record file is absent or does not
    parse is not a hit: the call goes on to [process], the full
    recomputation.  [load_index] cannot raise. *)
Theorem corrupt_cache_state_is_a_miss `{Hasher} (env : Env) (pdf : path) (w : world)
    (st : stat_result) (idx e : gmap string json) (cf : string) :
  (∀ fs, fs !! INDEX_FILE = None ∨ fs !! INDEX_FILE = Some Garbage →
         load_index fs = JDict ∅)
  ∧ (stat env pdf = Some st →
     w_index w = JDict idx →
     idx !! str_path (resolve env pdf) = Some (JDict e) →
     e !! "cache_file" = Some (JStr cf) →
     w_files w !! cf = None ∨ w_files w !! cf = Some Garbage →
     ocr_pdf_with_cache env pdf w =
       process env pdf (str_path (resolve env pdf)) (py_int (st_mtime st)) (st_size st) w
     ∧ EvHash pdf ∈ events_of (ocr_pdf_with_cache env pdf) w).
Proof.
  split.
  - intros fs [E|E]; unfold load_index; by rewrite E.
  - intros Es Ei Hentry Ecf Hfile.
    assert (ocr_pdf_with_cache env pdf w =
              process env pdf (str_path (resolve env pdf))
                (py_int (st_mtime st)) (st_size st) w) as Hocr.
    { rewrite (ocr_unfold env pdf st idx w Es Ei), Hentry. simpl.
      rewrite (try_cache_dict e cf _ _ w Ecf). simpl.
      destruct (_ && _); [|done]. by destruct Hfile as [-> | ->]. }
    split; [done|]. unfold events_of. rewrite Hocr.
    destruct w as [index fs tr]. simpl in Ei. subst index.
    destruct (process_cases env pdf (str_path (resolve env pdf))
                (py_int (st_mtime st)) (st_size st) idx fs tr)
      as (evs & [(ex & -> & _)|(data & p & ps & _ & _ & ->)]);
      simpl; rewrite drop_app_length; apply elem_of_cons; right; apply elem_of_cons; by left.
Qed.

(** ** Cache hits and the index frame *)

Section HitFacts.
Context `{Hasher} (env : Env).

(** The trace of a miss: the events before, then the processing line, the
    hashing, and whatever follows. *)
Lemma ocr_miss_events pdf w :
  (∀ data, ¬ cache_hit env pdf w data) →
  is_Ok (fst (ocr_pdf_with_cache env pdf w)) = true →
  ∃ evs, events_of (ocr_pdf_with_cache env pdf) w = EvProcessing pdf :: EvHash pdf :: evs.
Proof.
  intros Hmiss Hok. unfold events_of.
  destruct (ocr_outcomes env pdf w)
    as [(e & Ho & _)|[(data & Hh & _)|(st & idx & Es & Ei & _ & Ho)]].
  - by rewrite Ho in Hok.
  - by apply Hmiss in Hh.
  - rewrite Ho. destruct w as [index fs tr]. simpl in Ei. subst index.
    destruct (process_cases env pdf (str_path (resolve env pdf))
                (py_int (st_mtime st)) (st_size st) idx fs tr)
      as (evs & [(ex & -> & _)|(data & p & ps & _ & _ & ->)]);
      exists evs; simpl; by rewrite drop_app_length.
Qed.

(** After a miss that returned a record, the document is a cache hit for
    that very record. *)
Lemma miss_then_hit pdf w record :
  (∀ data, ¬ cache_hit env pdf w data) →
  fst (ocr_pdf_with_cache env pdf w) = Ok record →
  cache_hit env pdf (snd (ocr_pdf_with_cache env pdf w)) record.
Proof.
  intros Hmiss Hret.
  destruct (ocr_outcomes env pdf w)
    as [(e & Ho & _)|[(data & Hh & _)|(st & idx & Es & Ei & _ & Ho)]].
  - rewrite Ho in Hret. done.
  - by apply Hmiss in Hh.
  - rewrite Ho in Hret |- *. destruct w as [index fs tr]. simpl in Ei. subst index.
    destruct (process_cases env pdf (str_path (resolve env pdf))
                (py_int (st_mtime st)) (st_size st) idx fs tr)
      as (evs & [(ex & Hp & _)|(data & p & ps & _ & _ & Hp)]);
      rewrite Hp in Hret |- *; [done|].
    cbv zeta in Hret |- *.
    set (k := completed _ _) in *.
    destruct (Nat.eqb_spec k 6) as [Ek|]; [|done].
    simpl in Hret. injection Hret as <-. rewrite Ek. simpl "<=?".
    set (sha := sha256_hex data). set (cf := sha +:+ ".json").
    destruct (cache_names_distinct (h_update h_new data)) as (N1 & N2 & N3 & N4 & N5).
    fold (sha256_hex data) in N1, N2, N3, N4, N5. fold sha cf in N1, N2, N3, N4, N5.
    exists st, (<[str_path (resolve env pdf) :=
                   index_entry (py_int (st_mtime st)) (st_size st) sha cf]> idx),
      (index_entry (py_int (st_mtime st)) (st_size st) sha cf).
    split; [done|]. split; [done|]. split; [by rewrite lookup_insert_eq|].
    eexists _, cf. split; [reflexivity|].
    split; [by rewrite lookup_insert_eq; simpl; apply Z.eqb_refl|].
    split; [by rewrite lookup_insert_ne, lookup_insert_eq by done; simpl; apply Z.eqb_refl|].
    split; [by rewrite !lookup_insert_ne, lookup_insert_eq by done|].
    simpl w_files. rewrite persist_done. fold sha cf.
    rewrite lookup_insert_ne by done. rewrite lookup_delete_ne by done.
    by rewrite lookup_insert_eq.
Qed.

End HitFacts.

Lemma py_eq_int_inj (v : json) (a b : Z) :
  py_eq_int v a = true → py_eq_int v b = true → a = b.
Proof. destruct v; simpl; try done; rewrite !Z.eqb_eq; congruence. Qed.

Lemma events_of_unchanged {A} (c : M A) (w : world) (r : result A) :
  c w = (r, w) → events_of c w = [].
Proof. intros E. unfold events_of. rewrite E. simpl. apply drop_all. Qed.

(** C2. [ocr_pdf_with_cache] returns the cached record without hashing the
    file and without any recognition exactly when the index has an entry
    for the document's absolute path whose stored mtime and size equal the
    current ones (the mtime in whole seconds, as the code takes it) and
    whose cache file exists and parses.  With another whole-second mtime
    the same state is a miss that runs the full recomputation.  A second
    call after a call that returned a record returns the same record and
    changes nothing. *)
Theorem cache_hit_iff_no_recomputation `{Hasher} (env : Env) (pdf : path) (w : world) :
  let out := ocr_pdf_with_cache env pdf w in
  let events := events_of (ocr_pdf_with_cache env pdf) w in
  (∀ data, cache_hit env pdf w data ↔
           fst out = Ok data ∧ (EvHash pdf ∉ events) ∧ (∀ n, EvRecognize n ∉ events))
  ∧ (∀ data env' st st',
       cache_hit env pdf w data →
       stat env pdf = Some st → stat env' pdf = Some st' →
       resolve env' pdf = resolve env pdf →
       py_int (st_mtime st') ≠ py_int (st_mtime st) →
       ocr_pdf_with_cache env' pdf w =
         process env' pdf (str_path (resolve env' pdf))
           (py_int (st_mtime st')) (st_size st') w
       ∧ EvHash pdf ∈ events_of (ocr_pdf_with_cache env' pdf) w)
  ∧ (∀ record, fst out = Ok record →
       ocr_pdf_with_cache env pdf (snd out) = (Ok record, snd out)).
Proof.
  intros out events. split; [|split].
  - intros data. split.
    + intros Hhit. pose proof (ocr_hit env pdf w data Hhit) as Ho.
      subst out events. rewrite (events_of_unchanged _ w (Ok data) Ho), Ho.
      split; [done|]. split; [apply not_elem_of_nil|]. intros n. apply not_elem_of_nil.
    + intros (Hok & Hhash & _). subst out events.
      destruct (ocr_outcomes env pdf w)
        as [(e & Ho & _)|[(data' & Hh & Ho)|(st & idx & Es & Ei & Hmiss & Ho)]].
      * by rewrite Ho in Hok.
      * rewrite Ho in Hok. simpl in Hok. by injection Hok as <-.
      * destruct (ocr_miss_events env pdf w Hmiss) as (evs & Hev).
        { by rewrite Hok. }
        exfalso. apply Hhash. rewrite Hev.
        apply elem_of_cons. right. apply elem_of_cons. by left.
  - intros data env' st st' (st0 & idx & entry & Es0 & Ei & Hentry & Hhit) Es Es' Er Hm.
    rewrite Es in Es0. injection Es0 as <-.
    destruct Hhit as (e & cf & -> & Hmt & _ & Hcf & _).
    assert (ocr_pdf_with_cache env' pdf w =
              process env' pdf (str_path (resolve env' pdf))
                (py_int (st_mtime st')) (st_size st') w) as Hocr.
    { rewrite (ocr_unfold env' pdf st' idx w Es' Ei), Er, Hentry. simpl.
      rewrite (try_cache_dict e cf _ _ w Hcf). simpl.
      destruct (py_eq_int (default JNull (e !! "mtime")) (py_int (st_mtime st'))) eqn:E;
        [|done].
      by pose proof (py_eq_int_inj _ _ _ E Hmt). }
    split; [done|]. unfold events_of. rewrite Hocr.
    destruct w as [index fs tr]. simpl in Ei. subst index.
    destruct (process_cases env' pdf (str_path (resolve env' pdf))
                (py_int (st_mtime st')) (st_size st') idx fs tr)
      as (evs & [(ex & -> & _)|(dat & p & ps & _ & _ & ->)]);
      simpl; rewrite drop_app_length; apply elem_of_cons; right; apply elem_of_cons; by left.
  - intros record Hok. subst out. apply ocr_hit.
    destruct (ocr_outcomes env pdf w)
      as [(e & Ho & _)|[(data' & Hh & Ho)|(st & idx & Es & Ei & Hmiss & Ho)]].
    + by rewrite Ho in Hok.
    + rewrite Ho in Hok |- *. simpl in Hok. by injection Hok as <-.
    + by apply miss_then_hit.
Qed.

(** C10. The index is changed in place at the key of the processed
    document only: a cache hit leaves it as it was; any call leaves every
    other key's entry as it was; a miss that returns a record sets exactly
    that key; an index that is not a dictionary is left alone. *)
Theorem index_changes_only_at_document `{Hasher} (env : Env) (pdf : path) (w : world) :
  let abs_path := str_path (resolve env pdf) in
  let out := ocr_pdf_with_cache env pdf w in
  (∀ data, cache_hit env pdf w data → w_index (snd out) = w_index w)
  ∧ (∀ idx, w_index w = JDict idx →
       ∃ idx', w_index (snd out) = JDict idx'
               ∧ ∀ key, key ≠ abs_path → idx' !! key = idx !! key)
  ∧ (∀ idx record,
       w_index w = JDict idx → (∀ data, ¬ cache_hit env pdf w data) →
       fst out = Ok record →
       ∃ st data,
         stat env pdf = Some st ∧ open_rb env pdf = Some data
         ∧ w_index (snd out) =
             JDict (<[abs_path := index_entry (py_int (st_mtime st)) (st_size st)
                                    (sha256_hex data) (sha256_hex data +:+ ".json")]> idx))
  ∧ ((∀ idx, w_index w ≠ JDict idx) → w_index (snd out) = w_index w).
Proof.
  intros abs_path out. subst abs_path out. split; [|split; [|split]].
  - intros data Hhit. by rewrite (ocr_hit env pdf w data Hhit).
  - intros idx Ei.
    destruct (ocr_outcomes env pdf w)
      as [(e & -> & _)|[(data' & _ & ->)|(st & idx0 & Es & Ei0 & _ & ->)]];
      [by exists idx..|].
    rewrite Ei in Ei0. injection Ei0 as <-.
    destruct w as [index fs tr]. simpl in Ei. subst index.
    destruct (process_cases env pdf (str_path (resolve env pdf))
                (py_int (st_mtime st)) (st_size st) idx fs tr)
      as (evs & [(ex & -> & _)|(dat & p & ps & _ & _ & ->)]); [by exists idx|].
    cbv zeta. cbn [snd w_index].
    match goal with |- context [(3 <=? ?k)%nat] => destruct (3 <=? k)%nat end;
      [|by exists idx].
    eexists. split; [reflexivity|]. intros key Hkey. by rewrite lookup_insert_ne.
  - intros idx record Ei Hmiss Hok.
    destruct (ocr_outcomes env pdf w)
      as [(e & Ho & _)|[(data' & Hh & _)|(st & idx0 & Es & Ei0 & _ & Ho)]].
    + by rewrite Ho in Hok.
    + by apply Hmiss in Hh.
    + rewrite Ei in Ei0. injection Ei0 as <-. rewrite Ho in Hok |- *.
      destruct w as [index fs tr]. simpl in Ei. subst index.
      destruct (process_cases env pdf (str_path (resolve env pdf))
                  (py_int (st_mtime st)) (st_size st) idx fs tr)
        as (evs & [(ex & Hp & _)|(dat & p & ps & Eo & _ & Hp)]);
        rewrite Hp in Hok |- *; [done|].
      cbv zeta in Hok |- *. exists st, dat. split; [done|]. split; [done|].
      set (k := completed _ _) in *.
      destruct (Nat.eqb_spec k 6) as [Ek|]; [by rewrite Ek|done].
  - intros Hnd.
    destruct (ocr_outcomes env pdf w)
      as [(e & -> & _)|[(data' & _ & ->)|(st & idx0 & Es & Ei0 & _ & _)]]; try done.
    by apply Hnd in Ei0.
Qed.

(** ** Persistence failures *)

Lemma completed_lt_Exists (fails : fsop → bool) (ops : list fsop) :
  Exists (λ op, fails op = true) ops → (completed fails ops < length ops)%nat.
Proof.
  induction 1 as [op ops Hop|op ops Hex IH]; simpl.
  - rewrite Hop. lia.
  - destruct (fails op); lia.
Qed.

Lemma completed_take (fails : fsop → bool) (n : nat) (ops : list fsop) :
  Exists (λ op, fails op = true) (take n ops) → (completed fails ops < n)%nat.
Proof.
  revert n. induction ops as [|op ops IH]; intros [|n]; simpl;
    try (intros Hex; by inversion Hex).
  intros Hex. destruct (fails op) eqn:E; [lia|].
  inversion Hex as [? ? Hop|? ? Hex']; subst; [congruence|].
  specialize (IH n Hex'). lia.
Qed.

Section LoopFacts.
Context `{Hasher} (env : Env).

(** A document whose processing raises an [Exception] is reported and
    skipped; the loop goes on with the remaining documents. *)
Lemma main_loop_raise pdf pdfs all_data w e :
  fst (ocr_pdf_with_cache env pdf w) = Raise e → is_Exception e = true →
  let w' := snd (ocr_pdf_with_cache env pdf w) in
  main_loop env (pdf :: pdfs) all_data w =
    main_loop env pdfs all_data
      (World (w_index w') (w_files w') (w_trace w' ++ [EvDocError pdf e])).
Proof.
  intros Hr He w'. subst w'. simpl. unfold bind at 1. unfold try_except, bind at 1.
  destruct (ocr_pdf_with_cache env pdf w) as [r w1]. simpl in *. subst r.
  rewrite He. by unfold bind, log, ret.
Qed.

Lemma main_loop_ok pdf pdfs all_data w data :
  fst (ocr_pdf_with_cache env pdf w) = Ok data →
  main_loop env (pdf :: pdfs) all_data w =
    main_loop env pdfs (<[str_path (resolve env pdf) := data]> all_data)
      (snd (ocr_pdf_with_cache env pdf w)).
Proof.
  intros Hr. simpl. unfold bind at 1. unfold try_except, bind at 1.
  destruct (ocr_pdf_with_cache env pdf w) as [r w1]. simpl in *. by subst r.
Qed.

End LoopFacts.

(** C7 (amended). When a step of persisting the record or the index fails
    on a miss, [ocr_pdf_with_cache] raises [OSError] and returns no
    record; [main] reports the failure for that document, leaves the
    document out of its results and goes on with the remaining documents.
    When the failing step belongs to the record write, the index is left
    as it was, in memory and on disk. *)
Theorem persistence_failure_is_reported `{Hasher} (env : Env) (pdf : path)
    (pdfs : list path) (all_data : gmap string json) (w : world)
    (st : stat_result) (idx : gmap string json) (data : bytes)
    (p : string) (ps : list string) :
  let abs_path := str_path (resolve env pdf) in
  let mtime := py_int (st_mtime st) in
  let ops := persist_ops abs_path mtime (st_size st) (sha256_hex data) (p :: ps) idx in
  let out := ocr_pdf_with_cache env pdf w in
  w_index w = JDict idx →
  ocr_pdf_with_cache env pdf w = process env pdf abs_path mtime (st_size st) w →
  open_rb env pdf = Some data →
  fst (extract_pages env pdf w) = Ok (p :: ps) →
  Exists (λ op, io_fails env op = true) ops →
  fst out = Raise OSError
  ∧ main_loop env (pdf :: pdfs) all_data w =
      main_loop env pdfs all_data
        (World (w_index (snd out)) (w_files (snd out))
               (w_trace (snd out) ++ [EvDocError pdf OSError]))
  ∧ (Exists (λ op, io_fails env op = true) (take 3 ops) →
     w_index (snd out) = w_index w
     ∧ load_index (w_files (snd out)) = load_index (w_files w)).
Proof.
  intros abs_path mtime ops out Ei Hmiss Eo Hpages Hfail.
  assert (fst out = Raise OSError
          ∧ w_index (snd out) =
              (if (3 <=? completed (io_fails env) ops)%nat
               then JDict (<[abs_path := index_entry mtime (st_size st) (sha256_hex data)
                                            (sha256_hex data +:+ ".json")]> idx)
               else JDict idx)
          ∧ w_files (snd out) = crash_after (completed (io_fails env) ops) ops (w_files w))
    as (Hraise & Hidx & Hfiles).
  { subst out. rewrite Hmiss.
    destruct w as [index fs tr]. simpl in Ei. subst index.
    destruct (process_cases env pdf abs_path mtime (st_size st) idx fs tr)
      as (evs & [(ex & _ & [Hno|Hno])|(data' & p' & ps' & Eo' & Hp' & Hp)]).
    - congruence.
    - by apply Hno in Hpages.
    - rewrite Eo in Eo'. injection Eo' as <-.
      rewrite Hpages in Hp'. injection Hp' as <- <-.
      rewrite Hp. cbv zeta. fold ops.
      pose proof (completed_lt_Exists _ _ Hfail) as Hlt.
      change (length ops) with 6%nat in Hlt.
      destruct (Nat.eqb_spec (completed (io_fails env) ops) 6); [lia|done]. }
  split; [done|]. split.
  - by apply main_loop_raise.
  - intros Hrec. apply completed_take in Hrec. rewrite Hidx, Hfiles.
    destruct (Nat.leb_spec 3 (completed (io_fails env) ops)); [lia|].
    split; [done|]. unfold load_index.
    assert (crash_after (completed (io_fails env) ops) ops (w_files w) !! INDEX_FILE
            = w_files w !! INDEX_FILE) as ->; [|done].
    destruct (cache_names_distinct (h_update h_new data)) as (N1 & N2 & N3 & N4 & N5).
    fold (sha256_hex data) in N1, N2, N3, N4, N5.
    remember (completed (io_fails env) ops) as k eqn:Ek. clear Ek.
    subst ops. unfold persist_ops. rewrite !safe_write_json_ops_steps.
    destruct k as [|[|[|k]]]; [..|lia]; unfold crash_after; simpl;
      rewrite ?lookup_insert_ne by done; done.
Qed.

(** ** Crash safety *)

Lemma tmp_name_fresh (name : string) : name +:+ ".tmp" ≠ name.
Proof. apply string_neq_by_length. rewrite string_length_app. simpl. lia. Qed.

(** The states one [safe_write_json] passes through. *)
Lemma safe_write_prefix (name : string) (obj : json) (fs : gmap string content) (k : nat) :
  crash_after k (safe_write_json_ops name obj) fs =
    match k with
    | 0 => fs
    | 1 => <[name +:+ ".tmp" := Garbage]> fs
    | 2 => <[name +:+ ".tmp" := Doc obj]> fs
    | _ => <[name := Doc obj]> (delete (name +:+ ".tmp") fs)
    end%nat.
Proof.
  rewrite safe_write_json_ops_steps.
  destruct k as [|[|[|k]]]; unfold crash_after; simpl;
    rewrite ?lookup_insert_eq, ?insert_insert_eq, ?delete_insert_eq; try done.
  by rewrite take_nil.
Qed.

(** Whatever the point of the crash: other names are untouched, and the
    destination holds what it held or the complete new document -- the
    latter once the rename is done. *)
Lemma safe_write_prefix_lookup (name : string) (obj : json)
    (fs : gmap string content) (k : nat) :
  let fs_k := crash_after k (safe_write_json_ops name obj) fs in
  (∀ n, n ≠ name → n ≠ name +:+ ".tmp" → fs_k !! n = fs !! n)
  ∧ (if (k <? 3)%nat then fs_k !! name = fs !! name
     else fs_k !! name = Some (Doc obj)).
Proof.
  intros fs_k. subst fs_k. rewrite safe_write_prefix.
  pose proof (tmp_name_fresh name) as Hfresh.
  destruct k as [|[|[|k]]]; simpl; (split; [intros n N1 N2|]);
    rewrite ?lookup_insert_eq; rewrite ?lookup_insert_ne by done;
    rewrite ?lookup_delete_ne by done; done.
Qed.

Lemma crash_after_app_cases (k : nat) (ops1 ops2 : list fsop) (fs : gmap string content) :
  crash_after k (ops1 ++ ops2) fs =
    if (k <=? length ops1)%nat then crash_after k ops1 fs
    else crash_after (k - length ops1) ops2 (crash_after (length ops1) ops1 fs).
Proof.
  destruct (Nat.leb_spec k (length ops1)).
  - by apply crash_after_app_l.
  - rewrite <- crash_after_app. f_equal. lia.
Qed.

Section CrashFacts.
Context `{Hasher}.
Context (abs_path : string) (mtime size : Z) (data : bytes) (pages_text : list string).
Context (idx : gmap string json) (fs : gmap string content).

Let sha := sha256_hex data.
Let cf := sha +:+ ".json".
Let record := record_data abs_path mtime size sha cf pages_text.
Let idx' := <[abs_path := index_entry mtime size sha cf]> idx.
Let ops := persist_ops abs_path mtime size sha pages_text idx.

(** The states a crash can leave behind, by what a reader finds under
    each name. *)
Lemma crash_state_lookup (k : nat) :
  let fs_k := crash_after k ops fs in
  (∀ name, name ≠ cf → name ≠ INDEX_FILE →
           name ≠ cf +:+ ".tmp" → name ≠ INDEX_FILE +:+ ".tmp" →
           fs_k !! name = fs !! name)
  ∧ (fs_k !! cf = fs !! cf ∨ fs_k !! cf = Some (Doc record))
  ∧ (fs_k !! INDEX_FILE = fs !! INDEX_FILE
     ∨ (fs_k !! INDEX_FILE = Some (Doc (JDict idx')) ∧ fs_k !! cf = Some (Doc record))).
Proof.
  destruct (cache_names_distinct (h_update h_new data)) as (N1 & N2 & N3 & N4 & N5).
  fold (sha256_hex data) in N1, N2, N3, N4, N5. fold sha cf in N1, N2, N3, N4, N5.
  intros fs_k. subst fs_k ops. unfold persist_ops. fold cf record idx'.
  rewrite crash_after_app_cases.
  change (length (safe_write_json_ops cf record)) with 3%nat.
  destruct (safe_write_prefix_lookup cf record fs k) as [Ha1 Ha2].
  destruct (safe_write_prefix_lookup cf record fs 3) as [Hb1 Hb2]. simpl in Hb2.
  destruct (safe_write_prefix_lookup INDEX_FILE (JDict idx')
              (crash_after 3 (safe_write_json_ops cf record) fs) (k - 3)) as [Hc1 Hc2].
  destruct (Nat.leb_spec k 3) as [Hk|Hk].
  - split; [intros name M1 M2 M3 M4; by apply Ha1|].
    split.
    + destruct (k <? 3)%nat; auto.
    + left. apply Ha1; done.
  - split; [intros name M1 M2 M3 M4; rewrite Hc1, Hb1; done|].
    assert (crash_after (k - 3) (safe_write_json_ops INDEX_FILE (JDict idx'))
              (crash_after 3 (safe_write_json_ops cf record) fs) !! cf
            = Some (Doc record)) as Hcf by (rewrite Hc1, Hb2; done).
    split; [by right|].
    destruct (k - 3 <? 3)%nat.
    + left. rewrite Hc2. apply Hb1; done.
    + right. done.
Qed.

End CrashFacts.

Lemma load_index_lookup (fs1 fs2 : gmap string content) :
  fs1 !! INDEX_FILE = fs2 !! INDEX_FILE → load_index fs1 = load_index fs2.
Proof. unfold load_index. by intros ->. Qed.

(** The directory after the first [k] steps of a miss, started from a
    coherent cache directory: the index a reader loads is the old one or
    the new one, the new one only when the new record is in place, and
    every index entry names a record file that exists and is complete. *)
Lemma crash_state_coherent `{Hasher} (abs_path : string) (mtime size : Z)
    (data : bytes) (pages_text : list string) (idx : gmap string json)
    (fs : gmap string content) (k : nat) :
  let sha := sha256_hex data in
  let cf := sha +:+ ".json" in
  let record := record_data abs_path mtime size sha cf pages_text in
  let idx' := JDict (<[abs_path := index_entry mtime size sha cf]> idx) in
  let ops := persist_ops abs_path mtime size sha pages_text idx in
  let fs_k := crash_after k ops fs in
  store_consistent fs → index_backed (JDict idx) fs →
  ¬ names_tmp (load_index fs) → ¬ names_tmp (JDict idx) →
  ops = [OpOpen (cf +:+ ".tmp"); OpDump (cf +:+ ".tmp") record;
         OpReplace (cf +:+ ".tmp") cf;
         OpOpen (INDEX_FILE +:+ ".tmp"); OpDump (INDEX_FILE +:+ ".tmp") idx';
         OpReplace (INDEX_FILE +:+ ".tmp") INDEX_FILE]
  ∧ store_consistent fs_k
  ∧ (load_index fs_k = load_index fs
     ∨ (load_index fs_k = idx' ∧ fs_k !! cf = Some (Doc record)))
  ∧ (fs_k !! cf = fs !! cf ∨ fs_k !! cf = Some (Doc record)).
Proof.
  intros sha cf record idx' ops fs_k Hcons Hback Hold Hnew.
  destruct (crash_state_lookup abs_path mtime size data pages_text idx fs k)
    as (Hother & Hcf & Hindex).
  fold sha cf record ops fs_k in Hother, Hcf, Hindex.
  split; [|split; [|split]].
  - subst ops. unfold persist_ops. by rewrite !safe_write_json_ops_steps.
  - intros idx0 key e cf' Hload Hkey Hcf'.
    assert (∀ index idx1, (index = load_index fs ∨ index = JDict idx) →
                     index = JDict idx1 → idx1 !! key = Some (JDict e) →
                     ∃ d, fs !! cf' = Some (Doc d)
                          ∧ cf' ≠ cf +:+ ".tmp" ∧ cf' ≠ INDEX_FILE +:+ ".tmp") as Hsrc.
    { intros index idx1 Hwhich Hi Hk.
      assert (∃ d, fs !! cf' = Some (Doc d)) as [d Hd].
      { destruct Hwhich; subst index; [by eapply Hcons|by eapply Hback]. }
      exists d. split; [done|].
      split; intros ->;
        (destruct Hwhich as [Hw|Hw]; [apply Hold|apply Hnew]; rewrite <- Hw;
         by eexists idx1, key, e, _). }
    assert (∀ d, fs !! cf' = Some (Doc d) →
                 cf' ≠ cf +:+ ".tmp" → cf' ≠ INDEX_FILE +:+ ".tmp" →
                 ∃ d', fs_k !! cf' = Some (Doc d')) as Hkeep.
    { intros d Hd M3 M4.
      destruct (decide (cf' = cf)) as [->|M1].
      { destruct Hcf as [-> | ->]; eauto. }
      destruct (decide (cf' = INDEX_FILE)) as [->|M2].
      { destruct Hindex as [-> |[-> _]]; eauto. }
      rewrite Hother by done. eauto. }
    destruct Hindex as [Hi|[Hi Hrec]].
    + rewrite (load_index_lookup _ _ Hi) in Hload.
      destruct (Hsrc (load_index fs) idx0) as (d & Hd & M3 & M4); eauto.
    + assert (load_index fs_k = idx') as Hl by (unfold load_index; by rewrite Hi).
      rewrite Hl in Hload. subst idx'. injection Hload as <-.
      destruct (decide (key = abs_path)) as [->|Hne].
      * rewrite lookup_insert_eq in Hkey. unfold index_entry in Hkey.
        injection Hkey as <-.
        rewrite !lookup_insert_ne, lookup_insert_eq in Hcf' by done.
        injection Hcf' as <-. by exists record.
      * rewrite lookup_insert_ne in Hkey by done.
        destruct (Hsrc (JDict idx) idx) as (d & Hd & M3 & M4); eauto.
  - destruct Hindex as [Hi|[Hi Hrec]].
    + left. by apply load_index_lookup.
    + right. split; [|done]. unfold load_index. by rewrite Hi.
  - done.
Qed.

(** Cutting a run of two writes at any step: the oracle [stops_at k]
    lets exactly [k] steps through. *)
Lemma stops_at_completed (a b dst1 dst2 : string) (o1 o2 : json) (k : nat) :
  a ≠ b → (k ≤ 6)%nat →
  let steps := [OpOpen a; OpDump a o1; OpReplace a dst1;
                OpOpen b; OpDump b o2; OpReplace b dst2] in
  completed (stops_at k steps) steps = k.
Proof.
  intros Hab Hk steps.
  assert (String.eqb a b = false) as E1 by (by apply String.eqb_neq).
  assert (String.eqb b a = false) as E2 by (by apply String.eqb_neq).
  do 7 (destruct k as [|k];
        [unfold steps, stops_at; simpl; by rewrite ?String.eqb_refl, ?E1, ?E2|]).
  lia.
Qed.

(** C5. Each persisted write goes to a temporary file of the same
    directory which is then renamed over the destination, and on a miss
    the record is written before the index.  The run of a miss is cut by
    the first file-system step that fails, and it can be cut at any of
    its six steps.  Starting from a coherent cache directory, wherever
    the run is cut, a reader finds a coherent directory: the index it
    loads is the old one or the new one, the new one only when the new
    record is in place, and every index entry names a record file that
    exists and is complete.  A run that is not cut leaves the new index
    and the new record. *)
Theorem persist_is_crash_safe `{Hasher} (env : Env) (pdf : path) (abs_path : string)
    (mtime size : Z) (data : bytes) (p : string) (ps : list string)
    (idx : gmap string json) (fs : gmap string content) (tr : list event) :
  let sha := sha256_hex data in
  let cf := sha +:+ ".json" in
  let record := record_data abs_path mtime size sha cf (p :: ps) in
  let idx' := JDict (<[abs_path := index_entry mtime size sha cf]> idx) in
  let w := World (JDict idx) fs tr in
  let steps := [OpOpen (cf +:+ ".tmp"); OpDump (cf +:+ ".tmp") record;
                OpReplace (cf +:+ ".tmp") cf;
                OpOpen (INDEX_FILE +:+ ".tmp"); OpDump (INDEX_FILE +:+ ".tmp") idx';
                OpReplace (INDEX_FILE +:+ ".tmp") INDEX_FILE] in
  open_rb env pdf = Some data →
  fst (extract_pages env pdf w) = Ok (p :: ps) →
  store_consistent fs → index_backed (JDict idx) fs →
  ¬ names_tmp (load_index fs) → ¬ names_tmp (JDict idx) →
  (∀ name obj,
     safe_write_json env name obj =
       fs_exec_all env [OpOpen (name +:+ ".tmp"); OpDump (name +:+ ".tmp") obj;
                        OpReplace (name +:+ ".tmp") name])
  ∧ (∀ fails : fsop → bool,
       let out := process (with_io_fails fails env) pdf abs_path mtime size w in
       let k := completed fails steps in
       let fs' := w_files (snd out) in
       fs' = crash_after k steps fs
       ∧ fst out = (if (k =? 6)%nat then Ok record else Raise OSError)
       ∧ store_consistent fs'
       ∧ (load_index fs' = load_index fs
          ∨ (load_index fs' = idx' ∧ fs' !! cf = Some (Doc record)))
       ∧ (fs' !! cf = fs !! cf ∨ fs' !! cf = Some (Doc record))
       ∧ (w_index (snd out) = JDict idx
          ∨ (w_index (snd out) = idx' ∧ fs' !! cf = Some (Doc record)))
       ∧ (k = 6%nat → load_index fs' = idx' ∧ fs' !! cf = Some (Doc record)))
  ∧ (∀ k, (k ≤ 6)%nat → completed (stops_at k steps) steps = k).
Proof.
  intros sha cf record idx' w steps Hopen Hpages Hcons Hback Hold Hnew.
  destruct (cache_names_distinct (h_update h_new data)) as (N1 & N2 & N3 & N4 & N5).
  fold (sha256_hex data) in N1, N2, N3, N4, N5. fold sha cf in N1, N2, N3, N4, N5.
  split; [|split].
  - intros name obj. unfold safe_write_json. by rewrite safe_write_json_ops_steps.
  - intros fails out k fs'.
    destruct (process_cases (with_io_fails fails env) pdf abs_path mtime size idx fs tr)
      as (evs & [(ex & _ & Hwhy)|(data' & p' & ps' & Eo & Ex & Hp)]).
    { exfalso. destruct Hwhy as [Hn|Hn].
      - change (open_rb env pdf = None) in Hn. by rewrite Hopen in Hn.
      - apply (Hn p ps). exact Hpages. }
    change (open_rb env pdf = Some data') in Eo.
    rewrite Hopen in Eo. injection Eo as <-.
    change (fst (extract_pages env pdf w) = Ok (p' :: ps')) in Ex.
    rewrite Hpages in Ex. injection Ex as <- <-.
    cbv zeta in Hp.
    destruct (crash_state_coherent abs_path mtime size data (p :: ps) idx fs k
                Hcons Hback Hold Hnew) as (Hops & Hk & Hload & Hcf).
    fold sha cf record idx' in Hops, Hk, Hload, Hcf, Hp.
    change (io_fails (with_io_fails fails env)) with fails in Hp.
    rewrite Hops in Hp, Hk, Hload, Hcf. fold steps k in Hp, Hk, Hload, Hcf.
    subst fs' out. unfold w. rewrite Hp. cbn [fst snd w_files w_index].
    split; [done|]. split; [done|]. split; [done|]. split; [done|]. split; [done|].
    assert ((3 ≤ k)%nat → crash_after k steps fs !! cf = Some (Doc record)) as Hrec.
    { intros H3. unfold steps. rewrite <- Hops. unfold persist_ops.
      fold cf record idx'. rewrite crash_after_app_cases.
      change (length (safe_write_json_ops cf record)) with 3%nat.
      destruct (safe_write_prefix_lookup INDEX_FILE idx'
                  (crash_after 3 (safe_write_json_ops cf record) fs) (k - 3)) as [Hc1 _].
      destruct (safe_write_prefix_lookup cf record fs 3) as [_ Hb2].
      cbv zeta in Hc1. simpl in Hb2.
      destruct (Nat.leb_spec k 3) as [Hle|Hgt].
      - by replace k with 3%nat by lia.
      - by rewrite Hc1. }
    split.
    + destruct (Nat.leb_spec 3 k) as [H3|H3]; [right; split; [done|by apply Hrec]|by left].
    + intros Hk6. split; [|apply Hrec; lia].
      rewrite Hk6. unfold steps. rewrite <- Hops.
      pose proof (persist_done abs_path mtime size sha (p :: ps) idx fs) as Hdone.
      cbv zeta in Hdone. rewrite Hdone.
      unfold load_index. by rewrite lookup_insert_eq.
  - intros k Hk. by apply stops_at_completed.
Qed.

(** ** The statements at concrete inputs *)

Lemma app_tmp_last4 (name : string) :
  String.substring (String.length (name +:+ ".tmp") - 4) 4 (name +:+ ".tmp") = ".tmp".
Proof.
  induction name as [|c name IH]; [done|].
  rewrite string_app_cons. simpl String.length.
  rewrite string_length_app in *. simpl String.length in *.
  replace (S (String.length name + 4) - 4)%nat with (S (String.length name)) by lia.
  replace (String.length name + 4 - 4)%nat with (String.length name) in IH by lia.
  by destruct (String.length name).
Qed.

Lemma other_index_backed : index_backed (JDict other_index) other_files.
Proof.
  intros idx key e cf [= <-] Hkey Hcf. unfold other_index in Hkey.
  apply lookup_singleton_Some in Hkey as [<- [= <-]].
  rewrite !lookup_insert_ne, lookup_insert_eq in Hcf by done.
  injection Hcf as <-. by exists JNull.
Qed.

Lemma other_index_no_tmp : ¬ names_tmp (JDict other_index).
Proof.
  intros (idx & key & e & name & [= <-] & Hkey & Hcf). unfold other_index in Hkey.
  apply lookup_singleton_Some in Hkey as [<- [= <-]].
  rewrite !lookup_insert_ne, lookup_insert_eq in Hcf by done.
  injection Hcf as Hname. pose proof (app_tmp_last4 name) as Hlast.
  rewrite <- Hname in Hlast. by vm_compute in Hlast.
Qed.

(** The run on the demo document is cut at its fifth step, the dump of
    the index: the record is in place, the reader still loads the old
    index, and the directory is coherent. *)
Lemma persist_is_crash_safe_witness :
  let cf := demo_sha +:+ ".json" in
  let idx' := JDict (<[demo_abs := index_entry 100 3 demo_sha cf]> other_index) in
  let steps := [OpOpen (cf +:+ ".tmp"); OpDump (cf +:+ ".tmp") demo_record;
                OpReplace (cf +:+ ".tmp") cf;
                OpOpen (INDEX_FILE +:+ ".tmp"); OpDump (INDEX_FILE +:+ ".tmp") idx';
                OpReplace (INDEX_FILE +:+ ".tmp") INDEX_FILE] in
  let out := process (with_io_fails (stops_at 4 steps) demo_env) demo_doc demo_abs 100 3
               (World (JDict other_index) other_files []) in
  store_consistent other_files
  ∧ fst out = Raise OSError
  ∧ store_consistent (w_files (snd out))
  ∧ load_index (w_files (snd out)) = JDict other_index
  ∧ w_files (snd out) !! cf = Some (Doc demo_record).
Proof.
  intros cf idx' steps out.
  assert (load_index other_files = JDict other_index) as Hload by done.
  assert (store_consistent other_files) as Hcons.
  { unfold store_consistent. rewrite Hload. apply other_index_backed. }
  assert (¬ names_tmp (load_index other_files)) as Hold.
  { rewrite Hload. apply other_index_no_tmp. }
  assert (fst (extract_pages demo_env demo_doc (World (JDict other_index) other_files []))
          = Ok ("one" :: ["two"; ""; "four"; "five"])) as Hpages by (by vm_compute).
  split; [done|].
  destruct (persist_is_crash_safe demo_env demo_doc demo_abs 100 3
              [Byte.x61; Byte.x62; Byte.x63] "one" ["two"; ""; "four"; "five"]
              other_index other_files [] eq_refl Hpages Hcons other_index_backed
              Hold other_index_no_tmp)
    as (_ & Hrun & Hcut).
  specialize (Hcut 4%nat). specialize (Hrun (stops_at 4 steps)).
  cbv zeta in Hrun, Hcut. fold demo_sha cf idx' in Hrun, Hcut.
  change (record_data demo_abs 100 3 demo_sha cf ["one"; "two"; ""; "four"; "five"])
    with demo_record in Hrun, Hcut.
  fold steps in Hrun, Hcut. fold out in Hrun.
  rewrite Hcut in Hrun by lia.
  destruct Hrun as (Hfs & Hres & Hk & _).
  split; [exact Hres|]. split; [exact Hk|].
  rewrite Hfs. split; by vm_compute.
Defined.

Lemma persistence_failure_is_reported_witness :
  let env := with_io_fails read_only_disk demo_env in
  let out := ocr_pdf_with_cache env demo_doc fresh_world in
  Exists (λ op, io_fails env op = true)
    (persist_ops demo_abs 100 3 demo_sha demo_texts ∅)
  ∧ fst out = Raise OSError
  ∧ main_loop env [demo_doc] ∅ fresh_world =
      main_loop env [] ∅
        (World (w_index (snd out)) (w_files (snd out))
               (w_trace (snd out) ++ [EvDocError demo_doc OSError])).
Proof.
  intros env out.
  assert (Exists (λ op, io_fails env op = true)
            (persist_ops demo_abs 100 3 demo_sha demo_texts ∅)) as Hfail.
  { by apply Exists_cons_hd. }
  split; [exact Hfail|].
  destruct (persistence_failure_is_reported env demo_doc [] ∅ fresh_world
              {| st_mtime := 201 # 2; st_size := 3 |} ∅
              [Byte.x61; Byte.x62; Byte.x63] "one" ["two"; ""; "four"; "five"])
    as (Hraise & Hloop & _); done.
Defined.

(** C7 as the specification states it fails: when nothing can be written, the
    freshly computed record is not returned -- the call raises -- and the
    run's results hold nothing for the document. *)
Lemma record_lost_on_write_failure :
  let env := with_io_fails read_only_disk demo_env in
  fst (extract_pages env demo_doc fresh_world) = Ok demo_texts
  ∧ fst (ocr_pdf_with_cache env demo_doc fresh_world) = Raise OSError
  ∧ (¬ ∃ record, fst (ocr_pdf_with_cache env demo_doc fresh_world) = Ok record)
  ∧ fst (main env ["docs"] fresh_world) = Ok ∅.
Proof.
  split; [by vm_compute|]. split; [by vm_compute|]. split; [|by vm_compute].
  intros [record Hr]. by vm_compute in Hr.
Qed.

Lemma cache_hit_iff_no_recomputation_witness :
  let w1 := snd (ocr_pdf_with_cache demo_env demo_doc fresh_world) in
  fst (ocr_pdf_with_cache demo_env demo_doc fresh_world) = Ok demo_record
  ∧ ocr_pdf_with_cache demo_env demo_doc w1 = (Ok demo_record, w1)
  ∧ cache_hit demo_env demo_doc w1 demo_record.
Proof.
  intros w1.
  assert (fst (ocr_pdf_with_cache demo_env demo_doc fresh_world) = Ok demo_record)
    as Hfirst by (by vm_compute).
  destruct (cache_hit_iff_no_recomputation demo_env demo_doc fresh_world)
    as (_ & _ & Hagain).
  specialize (Hagain demo_record Hfirst).
  split; [exact Hfirst|]. split; [exact Hagain|].
  apply (cache_hit_iff_no_recomputation demo_env demo_doc w1).
  fold w1 in Hagain. rewrite (events_of_unchanged _ w1 _ Hagain), Hagain.
  split; [done|]. split; [apply not_elem_of_nil|]. intros n. apply not_elem_of_nil.
Defined.

Lemma corrupt_cache_state_is_a_miss_witness :
  load_index {[ INDEX_FILE := Garbage ]} = JDict ∅
  ∧ ocr_pdf_with_cache demo_env demo_doc garbage_world =
      process demo_env demo_doc demo_abs 100 3 garbage_world
  ∧ fst (ocr_pdf_with_cache demo_env demo_doc garbage_world) = Ok demo_record.
Proof.
  destruct (corrupt_cache_state_is_a_miss demo_env demo_doc garbage_world
              {| st_mtime := 201 # 2; st_size := 3 |}
              {[ demo_abs := index_entry 100 3 "x" "x.json" ]}
              (<["mtime" := JInt 100]> (<["size" := JInt 3]>
                 (<["sha256" := JStr "x"]> (<["cache_file" := JStr "x.json"]> ∅))))
              "x.json") as [Hindex Hrecord].
  split; [apply Hindex; by right|].
  split; [|by vm_compute].
  apply Hrecord; try done. by right.
Defined.

Lemma index_changes_only_at_document_witness :
  let w1 := snd (ocr_pdf_with_cache demo_env demo_doc (World (JDict other_index) other_files [])) in
  ∃ idx', w_index w1 = JDict idx'
          ∧ idx' !! "/docs/b.pdf" = other_index !! "/docs/b.pdf"
          ∧ idx' !! demo_abs = Some (index_entry 100 3 demo_sha (demo_sha +:+ ".json")).
Proof.
  intros w1.
  destruct (index_changes_only_at_document demo_env demo_doc
              (World (JDict other_index) other_files [])) as (_ & Hframe & _ & _).
  destruct (Hframe other_index eq_refl) as (idx' & Hidx & Hother).
  exists idx'. split; [exact Hidx|]. split; [by apply Hother|].
  subst w1. assert (w_index (snd (ocr_pdf_with_cache demo_env demo_doc
      (World (JDict other_index) other_files [])))
    = JDict (<[demo_abs := index_entry 100 3 demo_sha (demo_sha +:+ ".json")]> other_index))
    as Hc by (by vm_compute).
  rewrite Hc in Hidx. injection Hidx as <-. by rewrite lookup_insert_eq.
Defined.

(** * Further properties of the program *)

(** ** What a failing call leaves behind *)

Section FailureFacts.
Context `{Hasher} (env : Env).

(** The only exception [extract_pages] lets through is the pool's. *)
Lemma extract_pages_raise pdf w e :
  fst (extract_pages env pdf w) = Raise e → e = BrokenProcessPool.
Proof.
  unfold extract_pages, collect_pages. munfold.
  destruct (convert_from_path env pdf) as [images|]; simpl; [|done].
  destruct (make_tasks env images) as [|t ts]; simpl; [done|].
  destruct (map_yields (pool env pdf)) as [k|]; simpl; [|done].
  destruct (submit_raises (pool env pdf)); simpl; [|done].
  by intros [= <-].
Qed.

(** The exceptions of [process], and when the store is as before. *)
Lemma process_raises pdf abs_path mtime size idx fs tr e :
  let out := process env pdf abs_path mtime size (World (JDict idx) fs tr) in
  fst out = Raise e →
  (e = OSError ∨ e = BrokenProcessPool ∨ e = UnboundLocalError)
  ∧ (e ≠ OSError ∨ open_rb env pdf = None →
     w_index (snd out) = JDict idx ∧ w_files (snd out) = fs).
Proof.
  intros out. subst out. destruct (extract_pages_run env pdf) as (r & evs & Hrun).
  assert (∀ w, fst (extract_pages env pdf w) = r) as Hfst
    by (intros w; by rewrite Hrun).
  unfold process, bind, log, lift, file_sha256. cbn [w_index w_files w_trace].
  destruct (open_rb env pdf) as [data|] eqn:Eo.
  2:{ simpl. intros [= <-]. split; [by left|done]. }
  rewrite hash_blocks_whole by done. fold (sha256_hex data).
  rewrite Hrun. cbn [w_index w_files w_trace].
  destruct r as [[|p ps]|e'].
  - simpl. intros [= <-]. split; [by right; right|done].
  - rewrite persist_run. cbv zeta.
    destruct (completed _ _ =? 6)%nat; simpl; [done|].
    intros [= <-]. split; [by left|]. by intros [?|?].
  - simpl. intros [= <-].
    rewrite (extract_pages_raise pdf fresh_world e') by (by rewrite Hfst).
    split; [by right; left|done].
Qed.

Lemma try_cache_raises entry mtime size w e :
  fst (try_cache entry mtime size w) = Raise e →
  e = AttributeError ∨ e = KeyError ∨ e = TypeError.
Proof.
  unfold try_cache. munfold. destruct (truthy entry); [|done].
  destruct entry as [| | | | |d]; simpl; try (intros [= <-]; by left).
  destruct (py_eq_int (default JNull (d !! "mtime")) mtime); [|done].
  destruct (py_eq_int (default JNull (d !! "size")) size); [|done].
  destruct (d !! "cache_file") as [cfv|]; simpl; [|intros [= <-]; by right; left].
  destruct cfv as [| | |cf| |]; simpl; try (intros [= <-]; by right; right).
  by destruct (w_files w !! cf) as [[?|]|].
Qed.

(** Every exception of [ocr_pdf_with_cache], and when the store is as it
    was before the call. *)
Lemma ocr_raises pdf w e :
  let out := ocr_pdf_with_cache env pdf w in
  fst out = Raise e →
  e ∈ [FileNotFoundError; AttributeError; KeyError; TypeError;
       OSError; BrokenProcessPool; UnboundLocalError]
  ∧ (e ≠ OSError ∨ open_rb env pdf = None →
     w_index (snd out) = w_index w ∧ w_files (snd out) = w_files w).
Proof.
  intros out. subst out.
  destruct (stat env pdf) as [st|] eqn:Es.
  2:{ unfold ocr_pdf_with_cache. munfold. rewrite Es. simpl. intros [= <-].
      split; [(rewrite !elem_of_cons; auto 10)|done]. }
  destruct (w_index w) as [| | | | |idx] eqn:Ei;
    try (unfold ocr_pdf_with_cache; munfold; rewrite Es, Ei; simpl; intros [= <-];
         split; [(rewrite !elem_of_cons; auto 10)|done]).
  rewrite (ocr_unfold env pdf st idx w Es Ei).
  destruct (try_cache_run (default JNull (idx !! str_path (resolve env pdf)))
              (py_int (st_mtime st)) (st_size st) w) as (r & Er & _).
  pose proof (try_cache_raises (default JNull (idx !! str_path (resolve env pdf)))
                (py_int (st_mtime st)) (st_size st) w) as Hkinds.
  rewrite Er in Hkinds |- *. simpl in Hkinds |- *.
  destruct r as [[data|]|e'].
  - done.
  - destruct w as [index fs tr]. simpl in Ei. subst index. intros Hr.
    destruct (process_raises pdf _ _ _ idx fs tr e Hr) as [Hk Hs].
    split; [|done]. destruct Hk as [->|[->| ->]]; (rewrite !elem_of_cons; auto 10).
  - simpl. intros [= <-]. split; [|done].
    destruct (Hkinds e' eq_refl) as [->|[->| ->]]; (rewrite !elem_of_cons; auto 10).
Qed.

End FailureFacts.



(** ** The document loop *)

Section LoopTotal.
Context `{Hasher} (env : Env).



End LoopTotal.


(** ** What a successful miss leaves behind *)

Section MissFacts.
Context `{Hasher} (env : Env).

(** The state after a miss that returned a record. *)
Lemma miss_postcondition pdf w record :
  (∀ data, ¬ cache_hit env pdf w data) →
  fst (ocr_pdf_with_cache env pdf w) = Ok record →
  ∃ st idx data p ps evs,
    stat env pdf = Some st ∧ w_index w = JDict idx ∧ open_rb env pdf = Some data
    ∧ fst (extract_pages env pdf w) = Ok (p :: ps)
    ∧ let abs_path := str_path (resolve env pdf) in
      let cf := sha256_hex data +:+ ".json" in
      let entry := index_entry (py_int (st_mtime st)) (st_size st) (sha256_hex data) cf in
      record = record_data abs_path (py_int (st_mtime st)) (st_size st)
                 (sha256_hex data) cf (p :: ps)
      ∧ snd (ocr_pdf_with_cache env pdf w) =
          World (JDict (<[abs_path := entry]> idx))
                (<[INDEX_FILE := Doc (JDict (<[abs_path := entry]> idx))]>
                   (delete (INDEX_FILE +:+ ".tmp")
                      (<[cf := Doc record]> (delete (cf +:+ ".tmp") (w_files w)))))
                (w_trace w ++ EvProcessing pdf :: EvHash pdf :: evs).
Proof.
  intros Hmiss Hok.
  destruct (ocr_outcomes env pdf w)
    as [(e & Ho & _)|[(data' & Hh & _)|(st & idx & Es & Ei & _ & Ho)]].
  - by rewrite Ho in Hok.
  - by apply Hmiss in Hh.
  - rewrite Ho in Hok |- *. destruct w as [index fs tr]. simpl in Ei. subst index.
    destruct (process_cases env pdf (str_path (resolve env pdf))
                (py_int (st_mtime st)) (st_size st) idx fs tr)
      as (evs & [(ex & Hp & _)|(data & p & ps & Eo & Hpages & Hp)]);
      rewrite Hp in Hok |- *; [done|].
    cbv zeta in Hok |- *. exists st, idx, data, p, ps, evs.
    split; [done|]. split; [done|]. split; [done|]. split; [done|].
    set (k := completed _ _) in *.
    destruct (Nat.eqb_spec k 6) as [Ek|]; [|done].
    simpl in Hok. injection Hok as <-. split; [done|].
    rewrite Ek. simpl "<=?". simpl snd. by rewrite persist_done.
Qed.

End MissFacts.

(** X3. After a miss that returns a record, the record is the one built
    from the document's path, whole-second mtime, size, content digest
    and page texts; it is stored in the cache directory under the name in
    its own [cache_file] field; the index on disk equals the index in
    memory; and neither temporary file is left behind. *)
Theorem successful_miss_is_persisted `{Hasher} (env : Env) (pdf : path) (w : world)
    (record : json) :
  let out := ocr_pdf_with_cache env pdf w in
  (∀ data, ¬ cache_hit env pdf w data) →
  fst out = Ok record →
  ∃ st data pages cf,
    stat env pdf = Some st ∧ open_rb env pdf = Some data
    ∧ fst (extract_pages env pdf w) = Ok pages ∧ pages ≠ []
    ∧ cf = sha256_hex data +:+ ".json"
    ∧ record = record_data (str_path (resolve env pdf)) (py_int (st_mtime st))
                 (st_size st) (sha256_hex data) cf pages
    ∧ py_get record "cache_file" = Ok (JStr cf)
    ∧ w_files (snd out) !! cf = Some (Doc record)
    ∧ load_index (w_files (snd out)) = w_index (snd out)
    ∧ w_files (snd out) !! (cf +:+ ".tmp") = None
    ∧ w_files (snd out) !! (INDEX_FILE +:+ ".tmp") = None.
Proof.
  intros out Hmiss Hok. subst out.
  destruct (miss_postcondition env pdf w record Hmiss Hok)
    as (st & idx & data & p & ps & evs & Es & Ei & Eo & Hpages & Hrec & Hw).
  cbv zeta in Hrec, Hw. rewrite Hw. simpl w_files. simpl w_index.
  destruct (cache_names_distinct (h_update h_new data)) as (N1 & N2 & N3 & N4 & N5).
  fold (sha256_hex data) in N1, N2, N3, N4, N5.
  exists st, data, (p :: ps), (sha256_hex data +:+ ".json").
  repeat (split; [done|]).
  split; [by rewrite Hrec|].
  split; [by rewrite lookup_insert_ne, lookup_delete_ne, lookup_insert_eq by done|].
  split; [unfold load_index; by rewrite lookup_insert_eq|].
  split.
  - rewrite lookup_insert_ne, lookup_delete_ne by done.
    rewrite lookup_insert_ne by done. by rewrite lookup_delete_eq.
  - rewrite lookup_insert_ne by done. by rewrite lookup_delete_eq.
Qed.

Lemma successful_miss_is_persisted_witness :
  let out := ocr_pdf_with_cache demo_env demo_doc fresh_world in
  fst out = Ok demo_record
  ∧ w_files (snd out) !! (demo_sha +:+ ".json") = Some (Doc demo_record)
  ∧ load_index (w_files (snd out)) = w_index (snd out).
Proof.
  intros out.
  assert (fst out = Ok demo_record) as Hok by (by vm_compute).
  assert (∀ data, ¬ cache_hit demo_env demo_doc fresh_world data) as Hmiss.
  { intros data (st & idx & entry & _ & [= <-] & Hentry & _).
    by rewrite lookup_empty in Hentry. }
  destruct (successful_miss_is_persisted demo_env demo_doc fresh_world demo_record
              Hmiss Hok)
    as (st & data & pages & cf & _ & Eo & _ & _ & -> & _ & _ & Hfile & Hload & _).
  injection Eo as <-. split; [exact Hok|]. split; [exact Hfile|exact Hload].
Defined.

(** X2. A call changes no file of the cache directory other than the
    index file, the record file named by the document's content digest,
    and the temporary files of these two. *)
Theorem call_touches_only_its_files `{Hasher} (env : Env) (pdf : path) (w : world)
    (name : string) :
  name ≠ INDEX_FILE → name ≠ INDEX_FILE +:+ ".tmp" →
  (∀ data, open_rb env pdf = Some data →
           name ≠ sha256_hex data +:+ ".json"
           ∧ name ≠ (sha256_hex data +:+ ".json") +:+ ".tmp") →
  w_files (snd (ocr_pdf_with_cache env pdf w)) !! name = w_files w !! name.
Proof.
  intros M2 M4 Hdata.
  destruct (ocr_outcomes env pdf w)
    as [(e & -> & _)|[(data' & _ & ->)|(st & idx & Es & Ei & _ & ->)]]; try done.
  destruct w as [index fs tr]. simpl in Ei. subst index.
  destruct (process_cases env pdf (str_path (resolve env pdf))
              (py_int (st_mtime st)) (st_size st) idx fs tr)
    as (evs & [(ex & -> & _)|(data & p & ps & Eo & _ & ->)]); [done|].
  cbv zeta. simpl.
  destruct (Hdata data Eo) as [M1 M3].
  by apply (crash_state_lookup (str_path (resolve env pdf))
              (py_int (st_mtime st)) (st_size st) data (p :: ps) idx fs).
Qed.

Lemma call_touches_only_its_files_witness :
  w_files (snd (ocr_pdf_with_cache demo_env demo_doc
                  (World (JDict other_index) other_files []))) !! "b.json"
  = Some (Doc JNull).
Proof.
  apply (call_touches_only_its_files demo_env demo_doc
           (World (JDict other_index) other_files []) "b.json"); [done|done|].
  intros data [= <-]. split; by vm_compute.
Defined.

(** ** Documents with the same content *)

(** X8. Record files are named by the content digest alone, so two
    documents with the same bytes share one record file.  After both were
    processed, the file holds the record of the one processed last, and a
    cache hit for the first returns that record -- whose [path] is the
    other document's. *)
Theorem same_content_shares_record_file `{Hasher} (env : Env) (pdf_a pdf_b : path)
    (w : world) (record_a record_b : json) :
  let w1 := snd (ocr_pdf_with_cache env pdf_a w) in
  let w2 := snd (ocr_pdf_with_cache env pdf_b w1) in
  open_rb env pdf_b = open_rb env pdf_a →
  str_path (resolve env pdf_a) ≠ str_path (resolve env pdf_b) →
  (∀ data, ¬ cache_hit env pdf_a w data) →
  fst (ocr_pdf_with_cache env pdf_a w) = Ok record_a →
  (∀ data, ¬ cache_hit env pdf_b w1 data) →
  fst (ocr_pdf_with_cache env pdf_b w1) = Ok record_b →
  ocr_pdf_with_cache env pdf_a w2 = (Ok record_b, w2)
  ∧ py_get record_a "path" = Ok (JStr (str_path (resolve env pdf_a)))
  ∧ py_get record_b "path" = Ok (JStr (str_path (resolve env pdf_b)))
  ∧ py_get record_a "cache_file" = py_get record_b "cache_file".
Proof.
  intros w1 w2 Hsame Hdiff Hmiss_a Hok_a Hmiss_b Hok_b.
  destruct (miss_postcondition env pdf_a w record_a Hmiss_a Hok_a)
    as (st_a & idx & data & pa & psa & evs_a & Es_a & Ei & Eo_a & _ & Hrec_a & Hw1).
  destruct (miss_postcondition env pdf_b w1 record_b Hmiss_b Hok_b)
    as (st_b & idx1 & data_b & pb & psb & evs_b & Es_b & Ei1 & Eo_b & _ & Hrec_b & Hw2).
  rewrite Hsame, Eo_a in Eo_b. injection Eo_b as <-.
  cbv zeta in Hrec_a, Hw1, Hrec_b, Hw2. fold w1 in Hw1, Hw2. fold w2 in Hw2.
  rewrite Hw1 in Ei1. simpl in Ei1. injection Ei1 as <-.
  destruct (cache_names_distinct (h_update h_new data)) as (N1 & N2 & N3 & N4 & N5).
  fold (sha256_hex data) in N1, N2, N3, N4, N5.
  split; [|split; [by rewrite Hrec_a|split; [by rewrite Hrec_b|by rewrite Hrec_a, Hrec_b]]].
  apply ocr_hit.
  exists st_a, (<[str_path (resolve env pdf_b) :=
                   index_entry (py_int (st_mtime st_b)) (st_size st_b) (sha256_hex data)
                     (sha256_hex data +:+ ".json")]>
                (<[str_path (resolve env pdf_a) :=
                     index_entry (py_int (st_mtime st_a)) (st_size st_a) (sha256_hex data)
                       (sha256_hex data +:+ ".json")]> idx)),
    (index_entry (py_int (st_mtime st_a)) (st_size st_a) (sha256_hex data)
       (sha256_hex data +:+ ".json")).
  split; [done|]. split; [by rewrite Hw2|].
  split; [by rewrite lookup_insert_ne, lookup_insert_eq by done|].
  eexists _, (sha256_hex data +:+ ".json"). split; [reflexivity|].
  split; [by rewrite lookup_insert_eq; simpl; apply Z.eqb_refl|].
  split; [by rewrite lookup_insert_ne, lookup_insert_eq by done; simpl; apply Z.eqb_refl|].
  split; [by rewrite !lookup_insert_ne, lookup_insert_eq by done|].
  rewrite Hw2. simpl w_files.
  by rewrite lookup_insert_ne, lookup_delete_ne, lookup_insert_eq by done.
Qed.

Lemma same_content_shares_record_file_witness :
  let pdf_b := ["docs"; "b.pdf"] in
  let w1 := snd (ocr_pdf_with_cache demo_env demo_doc fresh_world) in
  let w2 := snd (ocr_pdf_with_cache demo_env pdf_b w1) in
  ∃ record_b,
    ocr_pdf_with_cache demo_env demo_doc w2 = (Ok record_b, w2)
    ∧ py_get record_b "path" = Ok (JStr "/docs/b.pdf").
Proof.
  intros pdf_b w1 w2.
  set (record_b := record_data "/docs/b.pdf" 100 3 demo_sha (demo_sha +:+ ".json") demo_texts).
  assert (fst (ocr_pdf_with_cache demo_env demo_doc fresh_world) = Ok demo_record)
    as Hok_a by (by vm_compute).
  assert (fst (ocr_pdf_with_cache demo_env pdf_b w1) = Ok record_b)
    as Hok_b by (by vm_compute).
  assert (∀ data, ¬ cache_hit demo_env demo_doc fresh_world data) as Hmiss_a.
  { intros data (st & idx & entry & _ & [= <-] & Hentry & _).
    by rewrite lookup_empty in Hentry. }
  assert (∀ data, ¬ cache_hit demo_env pdf_b w1 data) as Hmiss_b.
  { intros data Hhit.
    pose proof (ocr_hit demo_env pdf_b w1 data Hhit) as Ho.
    apply (f_equal (λ o, w_trace (snd o))) in Ho. by vm_compute in Ho. }
  assert (open_rb demo_env pdf_b = open_rb demo_env demo_doc) as Hsame
    by (by vm_compute).
  assert (str_path (resolve demo_env demo_doc) ≠ str_path (resolve demo_env pdf_b))
    as Hdiff by (by vm_compute).
  exists record_b.
  pose proof (same_content_shares_record_file demo_env demo_doc pdf_b fresh_world
                demo_record record_b Hsame Hdiff Hmiss_a Hok_a Hmiss_b Hok_b)
    as (Hhit & _ & Hpath & _).
  split; [exact Hhit|exact Hpath].
Defined.

(** ** Index entries that cannot be used *)

Section EntryFacts.
Context `{Hasher} (env : Env).

Lemma ocr_with_entry pdf st idx w :
  stat env pdf = Some st → w_index w = JDict idx →
  ∀ r, try_cache (default JNull (idx !! str_path (resolve env pdf)))
         (py_int (st_mtime st)) (st_size st) w = (r, w) →
  ocr_pdf_with_cache env pdf w =
    match r with
    | Ok (Some data) => (Ok data, w)
    | Ok None =>
        process env pdf (str_path (resolve env pdf)) (py_int (st_mtime st)) (st_size st) w
    | Raise e => (Raise e, w)
    end.
Proof.
  intros Es Ei r Hr. rewrite (ocr_unfold env pdf st idx w Es Ei), Hr. done.
Qed.

End EntryFacts.

(** X4. An index entry whose stored mtime and size match the file but
    which has no usable [cache_file] makes the call raise -- [KeyError]
    when the key is missing, [TypeError] when its value is not a string --
    and an entry that is a true value other than a dictionary makes it
    raise [AttributeError].  Nothing is changed, so the next call on the
    same state raises again: such an entry is never repaired by the
    program. *)
Theorem malformed_entry_is_fatal `{Hasher} (env : Env) (pdf : path) (w : world)
    (st : stat_result) (idx : gmap string json) (entry : json) :
  stat env pdf = Some st →
  w_index w = JDict idx →
  idx !! str_path (resolve env pdf) = Some entry →
  (∀ e, entry = JDict e →
        py_eq_int (default JNull (e !! "mtime")) (py_int (st_mtime st)) = true →
        py_eq_int (default JNull (e !! "size")) (st_size st) = true →
        (e !! "cache_file" = None →
         ocr_pdf_with_cache env pdf w = (Raise KeyError, w))
        ∧ (∀ v, e !! "cache_file" = Some v → (∀ s, v ≠ JStr s) →
                ocr_pdf_with_cache env pdf w = (Raise TypeError, w)))
  ∧ (truthy entry = true → (∀ e, entry ≠ JDict e) →
     ocr_pdf_with_cache env pdf w = (Raise AttributeError, w)).
Proof.
  intros Es Ei Hentry. split.
  - intros e -> Hm Hs.
    assert (bool_decide (e = ∅) = false) as Hne.
    { apply bool_decide_eq_false. intros ->. by rewrite lookup_empty in Hm. }
    split.
    + intros Hcf.
      rewrite (ocr_with_entry env pdf st idx w Es Ei (Raise KeyError)); [done|].
      rewrite Hentry. unfold try_cache. simpl. rewrite Hne. munfold. simpl.
      by rewrite Hm, Hs, Hcf.
    + intros v Hcf Hv.
      rewrite (ocr_with_entry env pdf st idx w Es Ei (Raise TypeError)); [done|].
      rewrite Hentry. unfold try_cache. simpl. rewrite Hne. munfold. simpl.
      rewrite Hm, Hs, Hcf. simpl.
      destruct v as [| | |s| |]; try done. by destruct (Hv s).
  - intros Ht Hnd.
    rewrite (ocr_with_entry env pdf st idx w Es Ei (Raise AttributeError)); [done|].
    rewrite Hentry. change (default JNull (Some entry)) with entry. unfold try_cache. rewrite Ht. munfold.
    destruct entry as [| | | | |e]; try done. by destruct (Hnd e).
Qed.

(** An index whose entry for the demo document lacks [cache_file]. *)
Lemma malformed_entry_is_fatal_witness :
  let w := World (JDict {[ demo_abs := JDict (<["mtime" := JInt 100]>
                                               (<["size" := JInt 3]> ∅)) ]}) ∅ [] in
  ocr_pdf_with_cache demo_env demo_doc w = (Raise KeyError, w).
Proof.
  intros w.
  destruct (malformed_entry_is_fatal demo_env demo_doc w
              {| st_mtime := 201 # 2; st_size := 3 |}
              {[ demo_abs := JDict (<["mtime" := JInt 100]> (<["size" := JInt 3]> ∅)) ]}
              (JDict (<["mtime" := JInt 100]> (<["size" := JInt 3]> ∅))))
    as [Hdict _]; [done|done|done|].
  destruct (Hdict (<["mtime" := JInt 100]> (<["size" := JInt 3]> ∅))) as [Hkey _];
    [done|done|done|].
  by apply Hkey.
Defined.

(** X9. An index entry is used only for the path it is stored under and
    only while the stored size equals the file's: a document without an
    entry, and a document whose entry is a dictionary with another size,
    are both processed in full. *)
Theorem entry_is_bound_to_path_and_size `{Hasher} (env : Env) (pdf : path) (w : world)
    (st : stat_result) (idx : gmap string json) :
  stat env pdf = Some st →
  w_index w = JDict idx →
  (idx !! str_path (resolve env pdf) = None
   ∨ ∃ e, idx !! str_path (resolve env pdf) = Some (JDict e)
          ∧ py_eq_int (default JNull (e !! "size")) (st_size st) = false) →
  ocr_pdf_with_cache env pdf w =
    process env pdf (str_path (resolve env pdf)) (py_int (st_mtime st)) (st_size st) w
  ∧ ∀ data, ¬ cache_hit env pdf w data.
Proof.
  intros Es Ei Hcase.
  assert (try_cache (default JNull (idx !! str_path (resolve env pdf)))
            (py_int (st_mtime st)) (st_size st) w = (Ok None, w)) as Htry.
  { destruct Hcase as [-> |(e & -> & Hsize)]; [done|].
    unfold try_cache. simpl. destruct (negb (bool_decide (e = ∅))); [|done].
    munfold. simpl.
    destruct (py_eq_int (default JNull (e !! "mtime")) (py_int (st_mtime st))); [|done].
    by rewrite Hsize. }
  split; [by rewrite (ocr_with_entry env pdf st idx w Es Ei _ Htry)|].
  intros data (st' & idx' & entry & Es' & Ei' & Hentry & Hhit).
  rewrite Es in Es'. injection Es' as <-. rewrite Ei in Ei'. injection Ei' as <-.
  destruct (try_cache_run entry (py_int (st_mtime st)) (st_size st) w) as (r & Hr & Hiff).
  rewrite Hentry in Htry. simpl in Htry. rewrite Htry in Hr. injection Hr as <-.
  by apply Hiff in Hhit.
Qed.

Lemma entry_is_bound_to_path_and_size_witness :
  let w := World (JDict other_index) other_files [] in
  ocr_pdf_with_cache demo_env demo_doc w = process demo_env demo_doc demo_abs 100 3 w
  ∧ ∀ data, ¬ cache_hit demo_env demo_doc w data.
Proof.
  intros w.
  apply (entry_is_bound_to_path_and_size demo_env demo_doc w
           {| st_mtime := 201 # 2; st_size := 3 |} other_index); [done|done|].
  by left.
Defined.

(** ** The fallback after a failure of [Executor.map] *)

Section RepeatFacts.
Context {A : Type}.

Lemma repeated_perm (Q : A → bool) (k : nat) (l : list A) :
  mjoin (imap (λ i x, replicate (Nat.b2n (i <? k)%nat + Nat.b2n (Q x)) x) l)
  ≡ₚ take k l ++ List.filter Q l.
Proof.
  revert k. induction l as [|x l IH]; intros k; [by destruct k|].
  rewrite imap_cons. destruct k as [|k].
  - specialize (IH O). simpl in *. rewrite IH. by destruct (Q x).
  - specialize (IH k). simpl in *. unfold compose. simpl.
    rewrite IH. destruct (Q x); simpl; [|done].
    constructor. by rewrite <- Permutation_middle.
Qed.

Lemma repeated_elem_of (g : nat → A → nat) (l : list A) (x : A) :
  x ∈ mjoin (imap (λ i y, replicate (g i y) y) l) → x ∈ l.
Proof.
  intros Hx. apply list_elem_of_join in Hx as (ys & Hx & Hys).
  apply elem_of_lookup_imap in Hys as (i & y & -> & Hy).
  apply elem_of_replicate_inv in Hx as ->. by eapply list_elem_of_lookup_2.
Qed.

End RepeatFacts.

Lemma repeated_sorted (g : nat → nat * string → nat) (l : list (nat * string)) :
  increasing l →
  StronglySorted (py_le key_lt) (mjoin (imap (λ i y, replicate (g i y) y) l)).
Proof.
  intros Hl. revert g. induction Hl as [|x l Hl IH Hx]; intros g; [constructor|].
  rewrite imap_cons. simpl. apply StronglySorted_app_2.
  - intros x1 x2 Hx1 Hx2. apply elem_of_replicate_inv in Hx1 as ->.
    apply (repeated_elem_of (λ i, g (S i))) in Hx2.
    rewrite Forall_forall in Hx. specialize (Hx x2 Hx2).
    apply key_le_iff. lia.
  - generalize (g O x). intros n. induction n as [|n IHn]; simpl; constructor; [done|].
    apply Forall_forall. intros y Hy. apply elem_of_replicate_inv in Hy as ->.
    by apply key_le_iff.
  - apply (IH (λ i, g (S i))).
Qed.

Lemma snd_repeated {B} (c : nat → nat → nat) (n : nat → nat) (f : B → string)
    (l : list B) :
  snd <$> mjoin (imap (λ i p, replicate (c i p.1) p) (imap (λ i b, (n i, f b)) l))
  = mjoin (imap (λ i b, replicate (c i (n i)) (f b)) l).
Proof.
  revert c n. induction l as [|b l IH]; intros c n; [done|].
  rewrite !imap_cons. simpl. rewrite fmap_app, fmap_replicate. f_equal.
  apply (IH (λ i, c (S i)) (λ i, n (S i))).
Qed.

Section FallbackFacts.
Context `{Hasher} (env : Env).

(** What [collect_pages] returns when [Executor.map] raises after [k]
    results and the resubmission goes through. *)
Lemma collect_pages_partial pb images k w :
  map_yields pb = Some k → submit_raises pb = false →
  ∃ l, fst (collect_pages env pb (make_tasks env images) w) = Ok l
       ∧ l ≡ₚ take k (numbered env images)
              ++ List.filter (λ p, negb (result_raises pb p.1)) (numbered env images).
Proof.
  intros E1 E2. unfold collect_pages. rewrite E1, E2. simpl.
  eexists. split; [reflexivity|].
  rewrite worker_filter, <- worker_make_tasks, fmap_take.
  apply Permutation_app; [done|].
  apply filter_Permutation_bool, fmap_Permutation, as_completed_perm.
Qed.

End FallbackFacts.

(** X7. When [Executor.map] raises after delivering [k] results and the
    resubmission goes through, every page is recognised again: the texts
    of a document then hold page [i] once for having been delivered
    (the first [k] pages) and once more unless its resubmitted future
    fails.  The pages stay in page order; the pages delivered before the
    failure are repeated, never replaced. *)
Theorem fallback_repeats_delivered_pages `{Hasher} (env : Env) (pdf : path)
    (images : list bytes) (k : nat) (w : world) :
  convert_from_path env pdf = Some images →
  map_yields (pool env pdf) = Some k →
  submit_raises (pool env pdf) = false →
  fst (extract_pages env pdf w) =
    Ok (mjoin (imap (λ i img,
                 replicate (Nat.b2n (i <? k)%nat
                            + Nat.b2n (negb (result_raises (pool env pdf) (S i))))
                           (page_text env img))
               images)).
Proof.
  intros Ec Em Es. rewrite (extract_pages_fst env pdf images w Ec).
  destruct (make_tasks env images) as [|t ts] eqn:Et.
  { destruct images; [done|discriminate]. }
  rewrite <- Et.
  destruct (collect_pages_partial env (pool env pdf) images k w Em Es) as (l & -> & Hl).
  set (Q := λ p : nat * string, negb (result_raises (pool env pdf) p.1)) in *.
  set (T := mjoin (imap (λ i p, replicate (Nat.b2n (i <? k)%nat + Nat.b2n (Q p)) p)
                        (numbered env images))).
  assert (sort_by_page l = T) as ->.
  { rewrite sort_by_page_unfold.
    pose proof (numbered_increasing env images) as Hinc.
    apply (Sorted_unique_strong (py_le key_lt)).
    - intros x1 x2 Hx1 Hx2 H12 H21. apply key_le_iff in H12, H21.
      apply (increasing_key_inj (numbered env images)); [done| | |lia].
      + rewrite (py_sorted_perm key_lt), Hl in Hx1.
        apply elem_of_app in Hx1 as [Hx1|Hx1].
        * by apply (subseteq_take k).
        * by apply list_elem_of_In, filter_In in Hx1 as [Hx1%list_elem_of_In _].
      + by apply repeated_elem_of in Hx2.
    - apply py_sorted_sorted, key_lt_asym.
    - apply StronglySorted_Sorted.
      by apply (repeated_sorted (λ i p, Nat.b2n (i <? k)%nat + Nat.b2n (Q p))%nat).
    - rewrite py_sorted_perm, Hl. symmetry. apply (repeated_perm Q k). }
  f_equal.
  apply (snd_repeated
           (λ i m, Nat.b2n (i <? k)%nat + Nat.b2n (negb (result_raises (pool env pdf) m)))%nat
           S (page_text env) images).
Qed.

(** [Executor.map] delivers two pages and raises; of the resubmitted
    futures, finishing in the order 3, 1, 2, 4, 5, the one of page 4
    fails. *)
Lemma fallback_repeats_delivered_pages_witness :
  let pb := {| map_yields := Some 2%nat; submit_raises := false;
               completion := [2; 0]%nat; result_raises := λ n, (n =? 4)%nat |} in
  fst (extract_pages (with_pool pb demo_env) demo_doc fresh_world)
  = Ok ["one"; "one"; "two"; "two"; ""; "five"].
Proof.
  intros pb.
  by rewrite (fallback_repeats_delivered_pages (with_pool pb demo_env) demo_doc
                demo_pages 2 fresh_world).
Defined.

(** ** Writing and reading back *)


(** ** The search layer *)

Section SearchFacts.
Context (splitlines : string → list string) (rstrip : string → string).
Context (search : string → bool).

(** The hits of one page, as [search_in_pages] collects them. *)
Let hits_of (pno : nat) (numbered_lines : list (nat * string))
  : list (nat * nat * string) :=
  omap (λ p : nat * string,
          if search p.2 then Some (pno, p.1, rstrip p.2) else None)
       numbered_lines.

Lemma hits_of_sorted pno (g : nat → string → nat * string) (k : nat) lines :
  (∀ j raw, (g j raw).1 = (k + j)%nat) →
  StronglySorted reading_order (hits_of pno (imap g lines))
  ∧ Forall (λ h, h.1.1 = pno ∧ (k ≤ h.1.2)%nat) (hits_of pno (imap g lines)).
Proof.
  revert g k. induction lines as [|raw lines IH]; intros g k Hg.
  { split; constructor. }
  rewrite imap_cons.
  destruct (IH (g ∘ S) (S k)) as [IH1 IH2].
  { intros j raw'. simpl. rewrite Hg. lia. }
  assert (Forall (λ h, h.1.1 = pno ∧ (k < h.1.2)%nat)
            (hits_of pno (imap (g ∘ S) lines))) as IH3.
  { eapply Forall_impl; [exact IH2|]. simpl. intros h [? ?]. split; [done|lia]. }
  unfold hits_of in *. simpl.
  destruct (search (g O raw).2); [|split; [done|]].
  - pose proof (Hg O raw) as H0. rewrite Nat.add_0_r in H0.
    split; constructor; simpl.
    + done.
    + eapply Forall_impl; [exact IH3|]. simpl. intros h [? ?].
      right. simpl. split; [done|lia].
    + split; [done|lia].
    + eapply Forall_impl; [exact IH3|]. simpl. intros h [? ?]. split; [done|lia].
  - eapply Forall_impl; [exact IH3|]. simpl. intros h [? ?]. split; [done|lia].
Qed.

Lemma pages_sorted (F : nat → string → list (nat * nat * string)) (k : nat) pages :
  (∀ i text, StronglySorted reading_order (F i text)
             ∧ Forall (λ h, h.1.1 = (k + i)%nat) (F i text)) →
  StronglySorted reading_order (mjoin (imap F pages))
  ∧ Forall (λ h, (k ≤ h.1.1)%nat) (mjoin (imap F pages)).
Proof.
  revert F k. induction pages as [|text pages IH]; intros F k HF.
  { split; constructor. }
  rewrite imap_cons. simpl.
  destruct (IH (F ∘ S) (S k)) as [IH1 IH2].
  { intros i text'. simpl. destruct (HF (S i) text') as [? Hk]. split; [done|].
    eapply Forall_impl; [exact Hk|]. simpl. intros h ->. lia. }
  destruct (HF O text) as [H1 H2]. rewrite Nat.add_0_r in H2.
  rewrite Forall_forall in IH2, H2. split.
  - apply StronglySorted_app_2; [|done|done].
    intros x1 x2 Hx1 Hx2. left. rewrite (H2 x1 Hx1).
    specialize (IH2 x2 Hx2). simpl in IH2. lia.
  - apply Forall_app. split; apply Forall_forall; intros h Hh.
    + rewrite (H2 h Hh). lia.
    + specialize (IH2 h Hh). simpl in IH2. lia.
Qed.

Lemma search_in_pages_sorted pages :
  StronglySorted reading_order (search_in_pages splitlines rstrip search pages).
Proof.
  unfold search_in_pages.
  apply (pages_sorted _ 1). intros i text.
  destruct (hits_of_sorted (S i) (λ j raw, (S j, raw)) 1 (splitlines text)) as [H1 H2];
    [done|].
  split; [exact H1|].
  eapply Forall_impl; [exact H2|]. simpl. by intros h [-> _].
Qed.

Lemma search_in_pages_elem_of pages pno lno txt :
  (pno, lno, txt) ∈ search_in_pages splitlines rstrip search pages ↔
  ∃ i j text raw,
    pno = S i ∧ lno = S j ∧ pages !! i = Some text
    ∧ splitlines text !! j = Some raw ∧ search raw = true ∧ txt = rstrip raw.
Proof.
  unfold search_in_pages. rewrite list_elem_of_join. split.
  - intros (hs & Hh & Hhs).
    apply elem_of_lookup_imap in Hhs as (i & text & -> & Hi).
    apply list_elem_of_omap in Hh as (q & Hq & Hsome).
    apply elem_of_lookup_imap in Hq as (j & raw & -> & Hj).
    simpl in Hsome. destruct (search raw) eqn:Hs; [|done].
    injection Hsome as <- <- <-. by exists i, j, text, raw.
  - intros (i & j & text & raw & -> & -> & Hi & Hj & Hs & ->).
    eexists. split; [|eapply elem_of_lookup_imap_2, Hi].
    apply list_elem_of_omap. exists (S j, raw). split.
    + eapply (elem_of_lookup_imap_2 (λ j raw, (S j, raw))), Hj.
    + simpl. by rewrite Hs.
Qed.

End SearchFacts.

(** X10. [search_in_pages] returns exactly the matching lines: a triple
    is in the result if and only if it is a 1-based page number, a 1-based
    line number of that page whose line matches, and that line stripped on
    the right.  The result is in reading order, strictly: by page, then by
    line, so no line is reported twice.  This holds for whatever
    [splitlines], [rstrip] and [search] do. *)
Theorem search_in_pages_exact_and_ordered (splitlines : string → list string)
    (rstrip : string → string) (search : string → bool) (pages : list string) :
  (∀ pno lno txt,
     (pno, lno, txt) ∈ search_in_pages splitlines rstrip search pages ↔
     ∃ i j text raw,
       pno = S i ∧ lno = S j ∧ pages !! i = Some text
       ∧ splitlines text !! j = Some raw ∧ search raw = true ∧ txt = rstrip raw)
  ∧ StronglySorted reading_order (search_in_pages splitlines rstrip search pages).
Proof.
  split.
  - intros pno lno txt. apply search_in_pages_elem_of.
  - apply search_in_pages_sorted.
Qed.

(** ** The report of one file *)

Section ReportFacts.

Implicit Types (d : list (nat * list (nat * string))) (hits : list (nat * nat * string)).

Lemma setdefault_append_new pno item d :
  Forall (λ g, (g.1 < pno)%nat) d →
  setdefault_append pno item d = d ++ [(pno, [item])].
Proof.
  induction 1 as [|[k items] d Hk _ IH]; simpl; [done|].
  simpl in Hk. destruct (Nat.eqb_spec k pno); [lia|]. by rewrite IH.
Qed.

Lemma setdefault_append_last pno item items d :
  Forall (λ g, (g.1 < pno)%nat) d →
  setdefault_append pno item (d ++ [(pno, items)]) = d ++ [(pno, items ++ [item])].
Proof.
  induction 1 as [|[k its] d Hk _ IH]; simpl.
  - by rewrite Nat.eqb_refl.
  - simpl in Hk. destruct (Nat.eqb_spec k pno); [lia|]. by rewrite IH.
Qed.

Lemma report_lines_app d1 d2 :
  report_lines (d1 ++ d2) = report_lines d1 ++ report_lines d2.
Proof. unfold report_lines. apply bind_app. Qed.

(** The dictionary built from hits that come page by page: its keys
    strictly increase, no group is empty, and its groups, one after the
    other, are the hits. *)
Lemma group_by_page_sorted hits :
  StronglySorted (λ a b, (a.1.1 ≤ b.1.1)%nat) hits →
  let d := group_by_page hits in
  report_lines d = hits
  ∧ StronglySorted (λ a b, (a.1 < b.1)%nat) d
  ∧ Forall (λ g, g.2 ≠ []) d.
Proof.
  induction hits as [|[[pno lno] txt] hits IH] using rev_ind; intros Hs.
  { repeat split; constructor. }
  apply StronglySorted_app in Hs as (Hle & Hs & _).
  destruct (IH Hs) as (Hlines & Hkeys & Hne). clear IH.
  unfold group_by_page in *. rewrite foldl_snoc. cbn [fst snd].
  set (d := foldl _ [] hits) in *. cbv zeta.
  assert (Forall (λ g, (g.1 ≤ pno)%nat) d) as Hkle.
  { apply Forall_forall. intros [k items] Hg. simpl.
    rewrite Forall_forall in Hne. specialize (Hne _ Hg). simpl in Hne.
    destruct items as [|it items]; [done|].
    assert ((k, it.1, it.2) ∈ hits) as Hin.
    { rewrite <- Hlines. unfold report_lines. apply list_elem_of_bind.
      exists (k, it :: items). split; [|done]. simpl. left. }
    apply (Hle _ (pno, lno, txt)) in Hin; [done|]. left. }
  destruct d as [|[k items] d' _] using rev_ind.
  { simpl. rewrite <- Hlines. split; [done|]. split; [repeat constructor|].
    by apply Forall_singleton. }
  apply StronglySorted_app in Hkeys as (Hlt & Hkeys' & _).
  apply Forall_app in Hkle as [Hkle' Hk]. apply Forall_app in Hne as [Hne' Hnek].
  rewrite Forall_singleton in Hk, Hnek. simpl in Hk, Hnek.
  assert (Forall (λ g, (g.1 < k)%nat) d') as Hltk.
  { apply Forall_forall. intros g Hg. apply (Hlt g (k, items)); [done|]. left. }
  rewrite report_lines_app in Hlines.
  destruct (decide (k = pno)) as [->|Hneq].
  - rewrite setdefault_append_last by done. split; [|split].
    + rewrite report_lines_app, <- Hlines. unfold report_lines. simpl.
      rewrite !app_nil_r, fmap_app, app_assoc. done.
    + apply StronglySorted_app_2; [|done|repeat constructor].
      intros g1 g2 Hg1 Hg2. apply list_elem_of_singleton in Hg2 as ->.
      rewrite Forall_forall in Hltk. by apply Hltk.
    + apply Forall_app. split; [done|]. apply Forall_singleton. simpl.
      by destruct items.
  - assert (Forall (λ g, (g.1 < pno)%nat) (d' ++ [(k, items)])) as Hall.
    { apply Forall_app. split.
      - eapply Forall_impl; [exact Hltk|]. simpl. lia.
      - apply Forall_singleton. simpl. lia. }
    rewrite setdefault_append_new by done. split; [|split].
    + rewrite !report_lines_app, <- Hlines. unfold report_lines. simpl.
      by rewrite !app_nil_r.
    + apply StronglySorted_app_2; [| |repeat constructor].
      * intros g1 g2 Hg1 Hg2. apply list_elem_of_singleton in Hg2 as ->.
        rewrite Forall_forall in Hall. by apply Hall.
      * apply StronglySorted_app_2; [|done|repeat constructor].
        intros g1 g2 Hg1 Hg2. apply list_elem_of_singleton in Hg2 as ->.
        rewrite Forall_forall in Hltk. by apply Hltk.
    + apply Forall_app. split; [|by apply Forall_singleton].
      apply Forall_app. split; [done|by apply Forall_singleton].
Qed.

(** Looking every key up gives the dictionary back when the keys differ. *)
Lemma by_page_get_all d :
  StronglySorted (λ a b, (a.1 < b.1)%nat) d →
  (λ pno, (pno, by_page_get pno d)) <$> (fst <$> d) = d.
Proof.
  induction 1 as [|[k items] d Hd IH Hk]; [done|].
  simpl. rewrite Nat.eqb_refl. f_equal.
  rewrite <- IH at 2. rewrite <- !list_fmap_compose.
  apply list_fmap_ext. intros i [k' items'] Hi. simpl.
  rewrite Forall_forall in Hk.
  apply list_elem_of_lookup_2 in Hi. specialize (Hk _ Hi). simpl in Hk.
  destruct (Nat.eqb_spec k k'); [lia|done].
Qed.

Lemma report_by_page_sorted hits :
  StronglySorted (λ a b, (a.1.1 ≤ b.1.1)%nat) hits →
  report_by_page hits = group_by_page hits.
Proof.
  intros Hs. destruct (group_by_page_sorted hits Hs) as (_ & Hkeys & _).
  unfold report_by_page. cbv zeta in *.
  rewrite py_sorted_id; [by apply by_page_get_all|].
  apply StronglySorted_Sorted.
  apply (StronglySorted_fmap fst (λ a b, (a.1 < b.1)%nat)); [|done].
  intros x y Hxy. unfold py_le. apply Nat.ltb_ge. lia.
Qed.

Lemma reading_order_by_page hits :
  StronglySorted reading_order hits →
  StronglySorted (λ a b, (a.1.1 ≤ b.1.1)%nat) hits.
Proof.
  induction 1 as [|h hits Hs IH Hh]; constructor; [done|].
  eapply Forall_impl; [exact Hh|]. intros b [?|[? _]]; lia.
Qed.

End ReportFacts.

(** X11. What [main] prints for a file is what [search_in_pages] found:
    the lines under the page headings, read one after the other, are the
    hits in the same order; the headings are in strictly increasing page
    order, so each page has one heading, and no heading is without a
    line. *)
Theorem report_is_the_hits_by_page (splitlines : string → list string)
    (rstrip : string → string) (search : string → bool) (pages : list string) :
  let hits := search_in_pages splitlines rstrip search pages in
  let report := report_by_page hits in
  report_lines report = hits
  ∧ StronglySorted (λ a b, (a.1 < b.1)%nat) report
  ∧ Forall (λ g, g.2 ≠ []) report.
Proof.
  intros hits report.
  pose proof (reading_order_by_page hits
                (search_in_pages_sorted splitlines rstrip search pages)) as Hs.
  unfold report. rewrite (report_by_page_sorted hits Hs).
  apply (group_by_page_sorted hits Hs).
Qed.

(** ** Terminal colours *)

Lemma _ansi_rgb_empty fg bg bold :
  _ansi_rgb fg bg bold = "" ↔ fg = None ∧ bg = None ∧ bold = false.
Proof.
  split.
  - unfold _ansi_rgb.
    destruct bold, fg as [[[r g] b]|], bg as [[[r' g'] b']|]; simpl; try done.
  - by intros (-> & -> & ->).
Qed.

(** X12. [colorize] returns the text unchanged exactly when no colour is
    given and [bold] is off; with [bold] alone the text is wrapped as
    well.  In every other case the text comes back between the escape
    sequence and the reset [CSI 0m], so it is longer than the text by the
    two. *)
Theorem colorize_unchanged_iff (text : string) (fg bg : option (Z * Z * Z))
    (bold : bool) :
  (colorize text fg bg bold = text ↔ fg = None ∧ bg = None ∧ bold = false)
  ∧ String.length (colorize text fg bg bold)
    = (String.length text
       + if String.eqb (_ansi_rgb fg bg bold) "" then 0
         else String.length (_ansi_rgb fg bg bold) + 4)%nat
  ∧ colorize text None None true = CSI +:+ "1m" +:+ text +:+ CSI +:+ "0m".
Proof.
  assert (String.length (colorize text fg bg bold)
          = (String.length text
             + if String.eqb (_ansi_rgb fg bg bold) "" then 0
               else String.length (_ansi_rgb fg bg bold) + 4)%nat) as Hlen.
  { unfold colorize. cbv zeta.
    destruct (String.eqb (_ansi_rgb fg bg bold) ""); [lia|].
    rewrite !string_length_app. simpl. lia. }
  split; [|split; [exact Hlen|done]].
  rewrite <- _ansi_rgb_empty. split.
  - intros Heq. rewrite Heq in Hlen.
    destruct (String.eqb_spec (_ansi_rgb fg bg bold) ""); [done|lia].
  - intros Hs. unfold colorize. by rewrite Hs.
Qed.

(** ** What a hit looks at *)

(** X13. A hit is decided from the resolved path, the modification time
    in whole seconds and the size, and from nothing else: when a document
    is a cache hit, it stays one however its content changes, as long as
    the size and the whole second of the modification time are the same.
    The stored record is returned and the file is not read. *)
Theorem hit_ignores_content `{Hasher} (env env' : Env) (pdf : path) (w : world)
    (data : json) (st st' : stat_result) :
  stat env pdf = Some st →
  stat env' pdf = Some st' →
  resolve env' pdf = resolve env pdf →
  py_int (st_mtime st') = py_int (st_mtime st) →
  st_size st' = st_size st →
  cache_hit env pdf w data →
  ocr_pdf_with_cache env' pdf w = (Ok data, w)
  ∧ events_of (ocr_pdf_with_cache env' pdf) w = [].
Proof.
  intros Es Es' Hr Hm Hsz (st0 & idx & entry & Es0 & Ei & Hentry & Hhit).
  rewrite Es in Es0. injection Es0 as <-.
  assert (ocr_pdf_with_cache env' pdf w = (Ok data, w)) as Ho.
  { apply ocr_hit. exists st', idx, entry. by rewrite Hr, Hm, Hsz. }
  split; [done|]. unfold events_of. rewrite Ho. simpl. by rewrite drop_all.
Qed.

(** The demo document is cached; then its content is replaced by other
    bytes of the same length, later in the same second. *)
Lemma hit_ignores_content_witness :
  let env' := {| is_dir := is_dir demo_env; listdir := listdir demo_env;
                 is_file := is_file demo_env; resolve := resolve demo_env;
                 stat := λ _, Some {| st_mtime := 1009 # 10; st_size := 3 |};
                 open_rb := λ _, Some [Byte.x78; Byte.x79; Byte.x7a];
                 convert_from_path := convert_from_path demo_env;
                 image_to_string := image_to_string demo_env;
                 TESSERACT_CMD := TESSERACT_CMD demo_env;
                 OCR_LANG := OCR_LANG demo_env;
                 io_fails := io_fails demo_env; pool := pool demo_env |} in
  let w1 := snd (ocr_pdf_with_cache demo_env demo_doc fresh_world) in
  ocr_pdf_with_cache env' demo_doc w1 = (Ok demo_record, w1).
Proof.
  intros env' w1.
  assert (cache_hit demo_env demo_doc w1 demo_record) as Hhit.
  { apply miss_then_hit; [|by vm_compute].
    intros data (st & idx & entry & _ & [= <-] & Hentry & _).
    by rewrite lookup_empty in Hentry. }
  apply (hit_ignores_content demo_env env' demo_doc w1 demo_record
           {| st_mtime := 201 # 2; st_size := 3 |}
           {| st_mtime := 1009 # 10; st_size := 3 |});
    [reflexivity|reflexivity|reflexivity|by vm_compute|reflexivity|exact Hhit].
Defined.

(** ** The index file during a run *)

Section IndexFileFacts.
Context `{Hasher} (env : Env).
Hypothesis no_write_fails : ∀ op, io_fails env op = false.

Lemma completed_all ops : completed (io_fails env) ops = length ops.
Proof.
  induction ops as [|op ops IH]; simpl; [done|]. by rewrite no_write_fails, IH.
Qed.

Lemma ocr_keeps_index_file pdf w :
  load_index (w_files w) = w_index w →
  let w' := snd (ocr_pdf_with_cache env pdf w) in
  load_index (w_files w') = w_index w'.
Proof.
  intros Hinv.
  destruct (ocr_outcomes env pdf w)
    as [(e & -> & _)|[(data & _ & ->)|(st & idx & Es & Ei & _ & ->)]]; [done..|].
  destruct w as [index fs tr]. simpl in Ei. subst index. simpl in Hinv.
  destruct (process_cases env pdf (str_path (resolve env pdf))
              (py_int (st_mtime st)) (st_size st) idx fs tr)
    as (evs & [(ex & -> & _)|(dat & p & ps & _ & _ & ->)]); [done|].
  cbv zeta. rewrite completed_all.
  change (length (persist_ops _ _ _ _ _ _)) with 6%nat.
  cbn [snd w_files w_index Nat.leb]. rewrite persist_done.
  unfold load_index. by rewrite lookup_insert_eq.
Qed.

Lemma main_loop_keeps_index_file pdfs all_data w :
  load_index (w_files w) = w_index w →
  let w' := snd (main_loop env pdfs all_data w) in
  load_index (w_files w') = w_index w'.
Proof.
  revert all_data w. induction pdfs as [|pdf pdfs IH]; intros all_data w Hinv; [done|].
  pose proof (ocr_keeps_index_file pdf w Hinv) as Hstep. cbv zeta in Hstep.
  destruct (fst (ocr_pdf_with_cache env pdf w)) as [data|e] eqn:Er.
  - rewrite (main_loop_ok env pdf pdfs all_data w data Er). by apply IH.
  - destruct (ocr_raises env pdf w e Er) as [Hk _].
    assert (is_Exception e = true) as Hex.
    { repeat (apply elem_of_cons in Hk as [->|Hk]; [done|]).
      by apply not_elem_of_nil in Hk. }
    rewrite (main_loop_raise env pdf pdfs all_data w e Er Hex). by apply IH.
Qed.

End IndexFileFacts.

(** X14. [main] reads the index file once, before the first document,
    and every miss writes the whole index back.  On a disk on which no
    write fails, the index file therefore holds at the end of the
    document loop exactly the index the program has in memory: nothing
    a run has recorded is lost when it ends. *)
Theorem main_keeps_index_file_current `{Hasher} (env : Env) (source_dir : path)
    (pdf : path) (pdfs : list path) (w : world) :
  (∀ op, io_fails env op = false) →
  list_pdf_files env source_dir = Ok (pdf :: pdfs) →
  let w' := snd (main env source_dir w) in
  load_index (w_files w') = w_index w'.
Proof.
  intros Hio Hlist. unfold main. munfold. rewrite Hlist.
  exact (main_loop_keeps_index_file env Hio (pdf :: pdfs) ∅
           (World (load_index (w_files w)) (w_files w) (w_trace w)) eq_refl).
Qed.

Lemma main_keeps_index_file_current_witness :
  let w' := snd (main demo_env ["docs"] garbage_world) in
  load_index (w_files w') = w_index w'.
Proof.
  apply (main_keeps_index_file_current demo_env ["docs"] ["docs"; "a.pdf"] []);
    [done|by vm_compute].
Defined.
